(** * pcaudiolib-example: resource lifecycle of the raw-audio player

    A shallow embedding of [main.cpp]: the RAII wrappers of namespace
    [pcaudiolib] ([device], [stream], [throw_if_error]) and the [main]
    function that plays a raw PCM file through the audio backend.

    The program is sequential and talks to two collaborators: the C
    library (files, standard streams, [std::exit]) and the [pcaudiolib]
    C API.  Every call to either of them is an effect.  Effects are
    modelled by a monad [M] that threads the process state, records a
    trace of the calls made, and ends in one of three ways: normally, by
    a C++ exception, or by [std::exit]. *)

From Stdlib Require Import ZArith String Ascii Bool Arith Lia List.
From Stdlib Require Import Strings.Byte.
From Equations Require Import Equations.
Import ListNotations.

Local Open Scope Z_scope.
Local Open Scope list_scope.

Set Implicit Arguments.

(** ** Values *)

(** A native handle ([audio_object*], [FILE*]): null or an address. *)
Inductive pointer : Type :=
| nullptr
| ptr (address : positive).

Definition is_null (p : pointer) : bool :=
  match p with
  | nullptr => true
  | ptr _ => false
  end.

(** Conversions to the fixed-width unsigned types of the signatures. *)
Definition to_uint8 (z : Z) : Z := z mod 2 ^ 8.
Definition to_uint32 (z : Z) : Z := z mod 2 ^ 32.

Definition EXIT_SUCCESS : Z := 0.
Definition EXIT_FAILURE : Z := 1.

Definition newline : string := String (ascii_of_nat 10) EmptyString.

(** How a computation ends.  [Thrown] is a C++ exception leaving the
    computation; [Exited] is a call to [std::exit]. *)
Inductive outcome (A : Type) : Type :=
| Normal (a : A)
| Thrown
| Exited (status : Z).
Arguments Thrown {A}.
Arguments Exited {A} status.

(** ** The audio backend

    [pcaudiolib/audio.h] is an external C library.  Its functions are
    taken as an interface: a backend has a state of its own and each
    call is a transition on it.  [audio_object_close] and
    [audio_object_destroy] return [void]. *)
Class Backend : Type := {
  backend_state : Type;
  audio_object_format : Type;
  AUDIO_OBJECT_FORMAT_S16LE : audio_object_format;
  create_audio_device_object_impl :
    backend_state -> option string -> string -> string ->
    pointer * backend_state;
  audio_object_open_impl :
    backend_state -> pointer -> audio_object_format -> Z -> Z ->
    Z * backend_state;
  audio_object_write_impl :
    backend_state -> pointer -> list byte -> nat -> Z * backend_state;
  audio_object_drain_impl : backend_state -> pointer -> Z * backend_state;
  audio_object_close_impl : backend_state -> pointer -> backend_state;
  audio_object_destroy_impl : backend_state -> pointer -> backend_state;
  audio_object_strerror_impl : backend_state -> pointer -> Z -> string
}.

(** The C library side: the address [std::fopen] hands out for the
    stream it opens, the text [std::perror] prints for an [errno] value,
    and the bytes found in storage that was never written. *)
Class Platform : Type := {
  fopen_address : positive;
  strerror : Z -> string;
  indeterminate : nat -> byte
}.

Section Program.

Context {backend : Backend} {platform : Platform}.

(** ** Trace events

    One event per call that acquires or releases a resource, per backend
    call and per write to a standard stream. *)
Inductive event : Type :=
| call_fopen (filename mode : string) (result : pointer)
| call_fclose (stream : pointer)
| call_create_audio_device_object
    (device : option string) (application description : string)
    (result : pointer)
| call_audio_object_open
    (object : pointer) (format : audio_object_format) (rate channels : Z)
    (result : Z)
| call_audio_object_write
    (object : pointer) (data : list byte) (bytes : nat) (result : Z)
| call_audio_object_drain (object : pointer) (result : Z)
| call_audio_object_close (object : pointer)
| call_audio_object_destroy (object : pointer)
| call_audio_object_strerror (object : pointer) (error : Z) (result : string)
| write_stdout (text : string)
| write_stderr (text : string)
| call_fflush_stderr.

(** ** Process state

    [st_fs] is the file system as [std::fopen] sees it: the content of a
    readable file, or the [errno] value of a failed open.  [st_unread]
    is what is left to read on the stream opened by [std::fopen]. *)
Record State : Type := mkState {
  st_fs : string -> Z + list byte;
  st_errno : Z;
  st_unread : list byte;
  st_backend : backend_state
}.

(** ** The effect monad *)

Record result (A : Type) : Type := Result {
  res_outcome : outcome A;
  res_state : State;
  res_trace : list event
}.

Definition M (A : Type) : Type := State -> result A.

Definition ret {A} (a : A) : M A :=
  fun s => Result (Normal a) s [].

(** Prefix the events that happened before. *)
Definition after {A} (t : list event) (r : result A) : result A :=
  match r with
  | Result o s t' => Result o s (t ++ t')
  end.

Definition bind {A B} (m : M A) (k : A -> M B) : M B :=
  fun s =>
    match m s with
    | Result (Normal a) s1 t1 => after t1 (k a s1)
    | Result Thrown s1 t1 => Result Thrown s1 t1
    | Result (Exited status) s1 t1 => Result (Exited status) s1 t1
    end.

#[local] Notation "x <- m ;; k" := (bind m (fun x => k))
  (at level 100, m at next level, right associativity).
#[local] Notation "m ;; k" := (bind m (fun _ => k))
  (at level 100, right associativity).

(** Record an event. *)
Definition emit (e : event) : M unit :=
  fun s => Result (Normal tt) s [e].

(** [std::exit]: the process ends here.  Objects with automatic storage
    duration are not destroyed.  What the C library does on its own
    while the process ends is not part of the trace. *)
Definition exit {A} (status : Z) : M A :=
  fun s => Result (Exited status) s [].

(** An object with automatic storage duration: [ctor] builds it, [body]
    is the rest of the enclosing block, [dtor] runs when the block is
    left, normally or by an exception that propagates out of it.  If
    the constructor does not complete there is no object and no
    destructor call; if the block is ended by [std::exit] the stack is
    not unwound and the destructor does not run. *)
Definition scope {O A} (ctor : M O) (dtor : O -> M unit) (body : O -> M A)
  : M A :=
  o <- ctor ;;
  fun s =>
    match body o s with
    | Result (Exited status) s1 t1 => Result (Exited status) s1 t1
    | Result block_end s1 t1 =>
        match dtor o s1 with
        | Result (Normal _) s2 t2 => Result block_end s2 (t1 ++ t2)
        | Result Thrown s2 t2 => Result Thrown s2 (t1 ++ t2)
        | Result (Exited status) s2 t2 => Result (Exited status) s2 (t1 ++ t2)
        end
    end.

(** ** C library calls *)

(** What the first character of an [std::fopen] mode asks for: ["r"]
    opens an existing file and leaves it as it is, ["w"] creates the
    file or empties it, ["a"] creates it when it is missing.  Any other
    mode is invalid. *)
Inductive fopen_access : Type :=
| read_existing
| create_or_truncate
| create_or_append.

Definition access_of_mode (mode : string) : option fopen_access :=
  match mode with
  | String c _ =>
      if Ascii.eqb c "r" then Some read_existing
      else if Ascii.eqb c "w" then Some create_or_truncate
      else if Ascii.eqb c "a" then Some create_or_append
      else None
  | EmptyString => None
  end.

Definition EINVAL : Z := 22.

(** The file system with [filename] holding [content]. *)
Definition with_file (fs : string -> Z + list byte) (filename : string)
  (content : list byte) : string -> Z + list byte :=
  fun name => if String.eqb name filename then inr content else fs name.

(** [std::fopen].  Opening for reading fails with the [errno] the file
    system gives for the path, and changes no file.  Opening for
    writing changes the file system: the file is created or emptied, and
    this is what a later run of any program finds.  Failures to create a
    file are not modelled. *)
Definition fopen (filename mode : string) : M pointer :=
  fun s =>
    match st_fs s filename with
    | inr content =>
        let p := ptr fopen_address in
        match access_of_mode mode with
        | Some read_existing =>
            Result (Normal p)
              (mkState (st_fs s) (st_errno s) content (st_backend s))
              [call_fopen filename mode p]
        | Some create_or_truncate =>
            Result (Normal p)
              (mkState (with_file (st_fs s) filename []) (st_errno s) []
                 (st_backend s))
              [call_fopen filename mode p]
        | Some create_or_append =>
            Result (Normal p)
              (mkState (st_fs s) (st_errno s) [] (st_backend s))
              [call_fopen filename mode p]
        | None =>
            Result (Normal nullptr)
              (mkState (st_fs s) EINVAL (st_unread s) (st_backend s))
              [call_fopen filename mode nullptr]
        end
    | inl e =>
        match access_of_mode mode with
        | Some read_existing =>
            Result (Normal nullptr)
              (mkState (st_fs s) e (st_unread s) (st_backend s))
              [call_fopen filename mode nullptr]
        | Some create_or_truncate | Some create_or_append =>
            Result (Normal (ptr fopen_address))
              (mkState (with_file (st_fs s) filename []) (st_errno s) []
                 (st_backend s))
              [call_fopen filename mode (ptr fopen_address)]
        | None =>
            Result (Normal nullptr)
              (mkState (st_fs s) EINVAL (st_unread s) (st_backend s))
              [call_fopen filename mode nullptr]
        end
    end.

Definition fclose (stream : pointer) : M unit :=
  emit (call_fclose stream).

(** A buffer in memory, by index. *)
Definition buffer : Type := nat -> byte.

Definition store (bytes : list byte) (b : buffer) : buffer :=
  fun i => if (i <? length bytes)%nat then nth i bytes x00 else b i.

Definition load (b : buffer) (n : nat) : list byte :=
  map b (seq 0 n).

(** [std::fread] with object size 1: copies up to [count] unread bytes
    to the front of the buffer and returns how many.  Read errors are
    not modelled: a short count means the end of the file. *)
Definition fread (target : buffer) (count : nat) (stream : pointer)
  : M (nat * buffer) :=
  fun s =>
    let bytes := firstn count (st_unread s) in
    Result (Normal (length bytes, store bytes target))
      (mkState (st_fs s) (st_errno s) (skipn count (st_unread s))
         (st_backend s))
      [].

Definition printf (text : string) : M unit := emit (write_stdout text).
Definition fprintf_stderr (text : string) : M unit := emit (write_stderr text).
Definition fflush_stderr : M unit := emit call_fflush_stderr.

(** [std::perror(nullptr)]: the description of [errno] and a newline. *)
Definition perror_null : M unit :=
  fun s =>
    Result (Normal tt) s
      [write_stderr (strerror (st_errno s) ++ newline)%string].

(** ** Backend calls *)

Definition with_backend (s : State) (b : backend_state) : State :=
  mkState (st_fs s) (st_errno s) (st_unread s) b.

Definition create_audio_device_object
  (device : option string) (application description : string) : M pointer :=
  fun s =>
    let '(p, b) :=
      create_audio_device_object_impl (st_backend s) device application
        description in
    Result (Normal p) (with_backend s b)
      [call_create_audio_device_object device application description p].

Definition audio_object_open
  (object : pointer) (format : audio_object_format) (rate channels : Z)
  : M Z :=
  fun s =>
    let '(code, b) :=
      audio_object_open_impl (st_backend s) object format rate channels in
    Result (Normal code) (with_backend s b)
      [call_audio_object_open object format rate channels code].

Definition audio_object_write (object : pointer) (data : list byte)
  (bytes : nat) : M Z :=
  fun s =>
    let '(code, b) := audio_object_write_impl (st_backend s) object data bytes in
    Result (Normal code) (with_backend s b)
      [call_audio_object_write object data bytes code].

Definition audio_object_drain (object : pointer) : M Z :=
  fun s =>
    let '(code, b) := audio_object_drain_impl (st_backend s) object in
    Result (Normal code) (with_backend s b)
      [call_audio_object_drain object code].

Definition audio_object_close (object : pointer) : M unit :=
  fun s =>
    Result (Normal tt)
      (with_backend s (audio_object_close_impl (st_backend s) object))
      [call_audio_object_close object].

Definition audio_object_destroy (object : pointer) : M unit :=
  fun s =>
    Result (Normal tt)
      (with_backend s (audio_object_destroy_impl (st_backend s) object))
      [call_audio_object_destroy object].

Definition audio_object_strerror (object : pointer) (error : Z) : M string :=
  fun s =>
    let text := audio_object_strerror_impl (st_backend s) object error in
    Result (Normal text) s [call_audio_object_strerror object error text].

(** ** Handles of [boni.hpp] *)

(** Modelled from the spec: [boni::auto_handle] of [boni.hpp], which is
    not part of the sources.  It wraps a native handle, gives it back
    through [get] (and an implicit conversion), and on destruction calls
    its deleter on the handle unless the handle is null. *)
Record auto_handle : Type := mk_auto_handle { get : pointer }.

Definition auto_handle_ctor (handle : pointer) : M auto_handle :=
  ret (mk_auto_handle handle).

Definition auto_handle_dtor (deleter : pointer -> M unit) (this : auto_handle)
  : M unit :=
  if is_null (get this) then ret tt else deleter (get this).

(** Modelled from the spec: [boni::file], the handle of a [FILE*]
    released by [std::fclose]. *)
Definition file : Type := auto_handle.
Definition file_dtor : file -> M unit := auto_handle_dtor fclose.

(** ** Namespace [pcaudiolib] *)

(** [impl::device_deleter] is [boni::handle_deleter] instantiated with
    [audio_object_destroy]; [device] is the [auto_handle] using it. *)
Definition device_deleter : pointer -> M unit := audio_object_destroy.
Definition device : Type := auto_handle.
Definition device_dtor : device -> M unit := auto_handle_dtor device_deleter.

Definition throw_if_error (error_source : pointer) (error_code : Z) : M unit :=
  if negb (error_code =? 0) then
    error_string <- audio_object_strerror error_source error_code ;;
    fprintf_stderr (error_string ++ newline)%string ;;
    exit EXIT_FAILURE
  else ret tt.

(** [stream] keeps a reference to the device it was opened on.  The
    device object is never modified while a stream refers to it, so the
    reference is modelled by the value. *)
Record stream : Type := mk_stream { parent_device : device }.

Definition stream_open (this : stream) (format : audio_object_format)
  (rate channels : Z) : M Z :=
  audio_object_open (get (parent_device this)) format (to_uint32 rate)
    (to_uint8 channels).

Definition stream_close (this : stream) : M unit :=
  audio_object_close (get (parent_device this)).

Definition stream_ctor (target_device : device) (format : audio_object_format)
  (rate channels : Z) : M stream :=
  let this := mk_stream target_device in
  error_code <- stream_open this format rate channels ;;
  throw_if_error (get (parent_device this)) error_code ;;
  ret this.

Definition stream_dtor (this : stream) : M unit := stream_close this.

(** ** [main] *)

Definition usage : string :=
  ("Plays an audio file." ++ newline ++
   "Usage: pcaudiolib-exaple <audio-file>" ++ newline ++
   "The file must contain raw audio data:" ++ newline ++
   "  * With Signed 16-bit PCM encoding," ++ newline ++
   "  * In Little-endian byte order," ++ newline ++
   "  * Has one channel, and" ++ newline ++
   "  * Has sample rate of 44100 Hz." ++ newline)%string.

Definition rate : Z := 44100.
Definition channels : Z := 1.
Definition buffer_size_in_bytes : Z := to_uint32 (rate * 2).

(** What one pass through the body of [while (true)] decides. *)
Inductive loop_control : Type :=
| Break
| Continue (read_buffer : buffer).

(** The body of the playback loop: read a chunk, stop on an empty read,
    otherwise write what was read and check the error code. *)
Definition loop_body (audio_device : device) (source_stream : pointer)
  (size : nat) (read_buffer : buffer) : M loop_control :=
  r <- fread read_buffer size source_stream ;;
  let read_count := fst r in
  let read_buffer := snd r in
  if (read_count <=? 0)%nat then ret Break
  else
    error_code <-
      audio_object_write (get audio_device) (load read_buffer read_count)
        read_count ;;
    throw_if_error (get audio_device) error_code ;;
    ret (Continue read_buffer).

Definition inspect {A} (a : A) : {b : A | a = b} := exist _ a eq_refl.

(** [while (true) { ... }] of [main]. *)
Equations? playback_loop (audio_device : device) (source_stream : pointer)
  (size : nat) (read_buffer : buffer) (s : State)
  : result unit by wf (length (st_unread s)) lt :=
  playback_loop audio_device source_stream size read_buffer s
    with inspect (loop_body audio_device source_stream size read_buffer s) := {
    | exist _ (Result (Normal (Continue b)) s' t) H =>
        after t (playback_loop audio_device source_stream size b s');
    | exist _ (Result (Normal Break) s' t) _ => Result (Normal tt) s' t;
    | exist _ (Result Thrown s' t) _ => Result Thrown s' t;
    | exist _ (Result (Exited status) s' t) _ => Result (Exited status) s' t }.
Proof.
  clear playback_loop. revert H.
  unfold loop_body, bind, fread, audio_object_write, throw_if_error; cbn.
  destruct (length (firstn size (st_unread s)) <=? 0)%nat eqn:E; cbn;
    [discriminate |].
  apply Nat.leb_gt in E. rewrite length_firstn in E.
  destruct (audio_object_write_impl _ _ _ _) as [code b']; cbn.
  destruct (code =? 0); cbn; [| discriminate].
  intros [= _ <- _]. cbn. rewrite length_skipn. lia.
Qed.

(** The playback loop and the drain that follows it. *)
Definition playback (audio_device : device) (source_stream : pointer)
  (size : nat) (read_buffer : buffer) : M unit :=
  playback_loop audio_device source_stream size read_buffer ;;
  error_code <- audio_object_drain (get audio_device) ;;
  throw_if_error (get audio_device) error_code.

(** The declarations of [test_file], [audio_device] and [audio_sink],
    with [body] standing for the statements that follow them in the
    block.  The three objects are destroyed in reverse order of
    declaration when the block is left. *)
Definition acquire_resources {A} (audio_filename : string)
  (body : file -> device -> stream -> M A) : M A :=
  scope (handle <- fopen audio_filename "rb" ;; auto_handle_ctor handle)
    file_dtor
    (fun test_file =>
       (if is_null (get test_file) then
          fprintf_stderr
            ("Unable to load: " ++ audio_filename ++ newline)%string ;;
          fflush_stderr ;;
          perror_null ;;
          exit EXIT_FAILURE
        else ret tt) ;;
       scope
         (handle <-
            create_audio_device_object None "pcaudiolib-example"
              "raw-audio-player" ;;
          auto_handle_ctor handle)
         device_dtor
         (fun audio_device =>
            let format := AUDIO_OBJECT_FORMAT_S16LE in
            scope (stream_ctor audio_device format rate channels)
              stream_dtor
              (fun audio_sink => body test_file audio_device audio_sink))).

Definition main (argv : list string) : M unit :=
  let argc := Z.of_nat (length argv) in
  if negb (argc =? 2) then
    printf usage ;;
    exit EXIT_SUCCESS
  else
    let audio_filename := nth 1 argv ""%string in
    acquire_resources audio_filename
      (fun test_file audio_device audio_sink =>
         playback audio_device (get test_file)
           (Z.to_nat buffer_size_in_bytes) indeterminate).

(** A process that has just started on file system [fs], with the
    backend in state [b]. *)
Definition initial_state (fs : string -> Z + list byte) (b : backend_state)
  : State :=
  mkState fs 0 [] b.

(** ** Reading traces *)

Definition is_write_call (e : event) : bool :=
  match e with
  | call_audio_object_write _ _ _ _ => true
  | _ => false
  end.

Definition is_open_call (e : event) : bool :=
  match e with
  | call_audio_object_open _ _ _ _ _ => true
  | _ => false
  end.

Definition is_close_call (e : event) : bool :=
  match e with
  | call_audio_object_close _ => true
  | _ => false
  end.

Definition is_destroy_call (e : event) : bool :=
  match e with
  | call_audio_object_destroy _ => true
  | _ => false
  end.

Definition is_drain_call (e : event) : bool :=
  match e with
  | call_audio_object_drain _ _ => true
  | _ => false
  end.

Definition is_fclose_call (e : event) : bool :=
  match e with
  | call_fclose _ => true
  | _ => false
  end.

(** Calls into [pcaudiolib]. *)
Definition is_backend_call (e : event) : bool :=
  match e with
  | call_create_audio_device_object _ _ _ _
  | call_audio_object_open _ _ _ _ _
  | call_audio_object_write _ _ _ _
  | call_audio_object_drain _ _
  | call_audio_object_close _
  | call_audio_object_destroy _
  | call_audio_object_strerror _ _ _ => true
  | _ => false
  end.

(** How many events of a trace satisfy [p]. *)
Definition count (p : event -> bool) (t : list event) : nat :=
  length (filter p t).

(** The write calls of a trace in order: the data passed and the byte
    count passed. *)
Definition write_calls (t : list event) : list (list byte * nat) :=
  flat_map
    (fun e =>
       match e with
       | call_audio_object_write _ data bytes _ => [(data, bytes)]
       | _ => []
       end) t.

(** A successful write of one chunk. *)
Definition write_ok (object : pointer) (chunk : list byte) : event :=
  call_audio_object_write object chunk (length chunk) 0.

(** A write call passes at least one byte. *)
Definition positive_write (e : event) : Prop :=
  match e with
  | call_audio_object_write _ _ bytes _ => (1 <= bytes)%nat
  | _ => True
  end.

(** What a playback may do: write at least one byte, drain, ask for an
    error text, write to standard error. *)
Definition playback_event (e : event) : Prop :=
  match e with
  | call_audio_object_write _ _ bytes _ => (1 <= bytes)%nat
  | call_audio_object_drain _ _
  | call_audio_object_strerror _ _ _
  | write_stderr _ => True
  | _ => False
  end.



(** The calls that release a resource. *)
Definition is_release_call (e : event) : bool :=
  is_close_call e || is_destroy_call e || is_fclose_call e.

(** The three acquisitions of [main], and the three releases. *)
Definition acquired (audio_filename : string) (f d : pointer) (code : Z)
  : list event :=
  [call_fopen audio_filename "rb" f;
   call_create_audio_device_object None "pcaudiolib-example"
     "raw-audio-player" d;
   call_audio_object_open d AUDIO_OBJECT_FORMAT_S16LE 44100 1 code].

Definition released (f d : pointer) : list event :=
  call_audio_object_close d ::
  (if is_null d then [] else [call_audio_object_destroy d]) ++
  [call_fclose f].

(** The report [throw_if_error] makes of a non-zero error code. *)
Definition report (object : pointer) (code : Z) (text : string) : list event :=
  [call_audio_object_strerror object code text;
   write_stderr (text ++ newline)%string].

(** The backend calls that return an error code: the object and the
    code of a call that failed. *)
Definition failed_call (e : event) : option (pointer * Z) :=
  match e with
  | call_audio_object_open object _ _ _ code
  | call_audio_object_write object _ _ code
  | call_audio_object_drain object code =>
      if code =? 0 then None else Some (object, code)
  | _ => None
  end.

(** After the first failed call of a trace comes the report of that
    failure and nothing else. *)
Fixpoint stops_at_first_failure (t : list event) : Prop :=
  match t with
  | [] => True
  | e :: rest =>
      match failed_call e with
      | Some (object, code) => exists text, rest = report object code text
      | None => stops_at_first_failure rest
      end
  end.

(** A backend call that concerns device handle [d]: made on [d], or
    returning [d] when it is the call that creates the device. *)
Definition uses_device (d : pointer) (e : event) : Prop :=
  match e with
  | call_create_audio_device_object _ _ _ result => result = d
  | call_audio_object_open object _ _ _ _
  | call_audio_object_write object _ _ _
  | call_audio_object_drain object _
  | call_audio_object_close object
  | call_audio_object_destroy object
  | call_audio_object_strerror object _ _ => object = d
  | _ => True
  end.

(** Every write call of [m] passes at least one byte, and [m] leaves the
    file system as it found it. *)
Definition well_behaved {A} (m : M A) : Prop :=
  forall s,
    Forall positive_write (res_trace (m s)) /\
    st_fs (res_state (m s)) = st_fs s.

End Program.

(** The successive chunks of at most [size] bytes of [l]. *)
Equations? chunks (size : nat) (l : list byte) : list (list byte)
  by wf (length l) lt :=
  chunks size l with inspect (firstn size l) := {
    | exist _ [] _ => [];
    | exist _ (x :: chunk) H => (x :: chunk) :: chunks size (skipn size l) }.
Proof.
  rewrite length_skipn.
  assert (length (firstn size l) = S (length chunk)) as L
    by (rewrite H; reflexivity).
  rewrite length_firstn in L. lia.
Qed.

(** ** Concrete collaborators *)

Module Examples.

(** A backend that hands out [device_handle], answers [open_code] to
    open and [drain_code] to drain, and counts the write calls: the
    write call number [fail_at] (from zero) answers [write_code], the
    others succeed. *)
Definition scripted_backend (device_handle : pointer) (open_code : Z)
  (fail_at : nat) (write_code drain_code : Z) : Backend := {|
  backend_state := nat;
  audio_object_format := unit;
  AUDIO_OBJECT_FORMAT_S16LE := tt;
  create_audio_device_object_impl := fun b _ _ _ => (device_handle, b);
  audio_object_open_impl := fun b _ _ _ _ => (open_code, b);
  audio_object_write_impl :=
    fun b _ _ _ => (if (b =? fail_at)%nat then write_code else 0, S b);
  audio_object_drain_impl := fun b _ => (drain_code, b);
  audio_object_close_impl := fun b _ => b;
  audio_object_destroy_impl := fun b _ => b;
  audio_object_strerror_impl := fun _ _ _ => "backend error"%string
|}.

Definition test_platform : Platform := {|
  fopen_address := 7%positive;
  strerror := fun _ => "No such file or directory"%string;
  indeterminate := fun _ => xff
|}.

(** A file system with one readable file, [audio.raw]. *)
Definition one_file (content : list byte) (name : string) : Z + list byte :=
  if String.eqb name "audio.raw" then inr content else inl 2.

(** Backends used below: one that never fails, one whose second write
    call fails, one whose first write call fails, and one that cannot
    create a device and refuses to open the null handle. *)
Definition healthy_backend : Backend := scripted_backend (ptr 3) 0 0 0 0.
Definition second_write_fails : Backend := scripted_backend (ptr 3) 0 1 5 0.
Definition first_write_fails : Backend := scripted_backend (ptr 3) 0 0 5 0.
Definition no_device : Backend := scripted_backend nullptr 22 0 0 0.

(** Two more: one whose open call fails, one whose drain call fails. *)
Definition open_fails : Backend := scripted_backend (ptr 3) 13 0 0 0.
Definition drain_fails : Backend := scripted_backend (ptr 3) 0 0 0 9.

Definition five_bytes : list byte := [x01; x02; x03; x04; x05].
Definition three_bytes : list byte := [x01; x02; x03].

(** A process about to play [five_bytes] in chunks of two bytes. *)
Definition playing_five_bytes : @State healthy_backend :=
  @mkState healthy_backend (one_file five_bytes) 0 five_bytes 0%nat.

(** A process about to play [three_bytes] on a backend whose second
    write fails. *)
Definition playing_three_bytes : @State second_write_fails :=
  @mkState second_write_fails (one_file three_bytes) 0 three_bytes 0%nat.

(** The same process after the playback, and the calls it made. *)
Definition played_five_bytes : @State healthy_backend :=
  @mkState healthy_backend (one_file five_bytes) 0 [] 3%nat.

Definition five_bytes_trace : list (@event healthy_backend) :=
  [write_ok (ptr 3) [x01; x02];
   write_ok (ptr 3) [x03; x04];
   write_ok (ptr 3) [x05];
   call_audio_object_drain (ptr 3) 0].

(** A block that is left by an exception. *)
Definition throwing {backend : Backend} : M unit :=
  fun s => Result Thrown s [].

(** The command line without a file name. *)
Definition play_nothing : list string := ["pcaudiolib-example"]%string.

(** The command line [pcaudiolib-example audio.raw], and one naming a
    file that does not exist. *)
Definition play_audio_raw : list string :=
  ["pcaudiolib-example"; "audio.raw"]%string.
Definition play_missing : list string :=
  ["pcaudiolib-example"; "missing.raw"]%string.

End Examples.


(** * Properties *)

Section Proofs.

Context {backend : Backend} {platform : Platform}.

#[local] Notation "x <- m ;; k" := (bind m (fun x => k))
  (at level 100, m at next level, right associativity).
#[local] Notation "m ;; k" := (bind m (fun _ => k))
  (at level 100, right associativity).

(** ** Results *)

Lemma after_outcome A t (r : result A) :
  res_outcome (after t r) = res_outcome r.
Proof. now destruct r. Qed.

Lemma after_state A t (r : result A) : res_state (after t r) = res_state r.
Proof. now destruct r. Qed.

Lemma after_trace A t (r : result A) :
  res_trace (after t r) = t ++ res_trace r.
Proof. now destruct r. Qed.

(** ** Memory and error signalling *)

Lemma load_store bytes b : load (store bytes b) (length bytes) = bytes.
Proof.
  unfold load. apply nth_ext with (d := store bytes b 0%nat) (d' := x00).
  - now rewrite length_map, length_seq.
  - intros n Hn. rewrite length_map, length_seq in Hn.
    rewrite map_nth, seq_nth by assumption. cbn. unfold store.
    apply Nat.ltb_lt in Hn. now rewrite Hn.
Qed.

Lemma throw_if_error_zero error_source s :
  throw_if_error error_source 0 s = Result (Normal tt) s [].
Proof. reflexivity. Qed.

Lemma throw_if_error_nonzero error_source error_code s :
  error_code <> 0 ->
  throw_if_error error_source error_code s =
  let text :=
    audio_object_strerror_impl (st_backend s) error_source error_code in
  Result (Exited EXIT_FAILURE) s
    [call_audio_object_strerror error_source error_code text;
     write_stderr (text ++ newline)%string].
Proof.
  intros H. unfold throw_if_error.
  destruct (error_code =? 0) eqn:E; [apply Z.eqb_eq in E; contradiction |].
  reflexivity.
Qed.

(** ** One pass of the playback loop *)

Lemma loop_body_eq audio_device source_stream size read_buffer s :
  loop_body audio_device source_stream size read_buffer s =
  let bytes := firstn size (st_unread s) in
  let s1 :=
    mkState (st_fs s) (st_errno s) (skipn size (st_unread s)) (st_backend s) in
  match bytes with
  | [] => Result (Normal Break) s1 []
  | _ :: _ =>
      let w :=
        audio_object_write_impl (st_backend s) (get audio_device) bytes
          (length bytes) in
      let call :=
        call_audio_object_write (get audio_device) bytes (length bytes)
          (fst w) in
      if fst w =? 0 then
        Result (Normal (Continue (store bytes read_buffer)))
          (with_backend s1 (snd w)) [call]
      else
        let text :=
          audio_object_strerror_impl (snd w) (get audio_device) (fst w) in
        Result (Exited EXIT_FAILURE) (with_backend s1 (snd w))
          [call;
           call_audio_object_strerror (get audio_device) (fst w) text;
           write_stderr (text ++ newline)%string]
  end.
Proof.
  unfold loop_body, bind, fread. cbn -[firstn skipn load store].
  rewrite load_store.
  destruct (firstn size (st_unread s)) as [|x bytes] eqn:E; [reflexivity |].
  cbn -[firstn skipn load store].
  unfold audio_object_write, throw_if_error. cbn -[firstn skipn load store].
  destruct (audio_object_write_impl _ _ _ _) as [code b']. cbn.
  destruct (code =? 0); reflexivity.
Qed.

Lemma playback_loop_step audio_device source_stream size read_buffer s :
  playback_loop audio_device source_stream size read_buffer s =
  let r := loop_body audio_device source_stream size read_buffer s in
  match res_outcome r with
  | Normal (Continue b) =>
      after (res_trace r)
        (playback_loop audio_device source_stream size b (res_state r))
  | Normal Break => Result (Normal tt) (res_state r) (res_trace r)
  | Thrown => Result Thrown (res_state r) (res_trace r)
  | Exited status => Result (Exited status) (res_state r) (res_trace r)
  end.
Proof.
  funelim (playback_loop audio_device source_stream size read_buffer s);
    match goal with
    | E : loop_body _ _ _ _ _ = _ |- _ => rewrite E
    end; reflexivity.
Qed.

(** ** Chunks *)

Lemma chunks_step size l :
  chunks size l =
  match firstn size l with
  | [] => []
  | chunk => chunk :: chunks size (skipn size l)
  end.
Proof.
  funelim (chunks size l);
    match goal with
    | E : firstn _ _ = _ |- _ => rewrite E
    end; reflexivity.
Qed.

Lemma firstn_nil_inv (size : nat) (l : list byte) :
  (0 < size)%nat -> firstn size l = [] -> l = [].
Proof.
  intros Hs H. destruct l as [|x l]; [reflexivity |].
  destruct size; [lia | discriminate].
Qed.

(** Induction on the chunks still to come. *)
Lemma chunks_ind (size : nat) (P : list byte -> Prop) :
  (0 < size)%nat ->
  P [] ->
  (forall l, l <> [] -> P (skipn size l) -> P l) ->
  forall l, P l.
Proof.
  intros Hs Hnil Hstep l.
  remember (length l) as n eqn:Hn. revert l Hn.
  induction n as [n IH] using lt_wf_ind. intros l Hn.
  destruct l as [|x l]; [exact Hnil |].
  apply Hstep; [discriminate |].
  apply (IH (length (skipn size (x :: l)))); [| reflexivity].
  rewrite length_skipn. subst n. cbn [length]. lia.
Qed.

Lemma concat_chunks size l : (0 < size)%nat -> concat (chunks size l) = l.
Proof.
  intros Hs. pattern l. apply (@chunks_ind size); [exact Hs | |];
    clear l; [| intros l Hl IH].
  - rewrite chunks_step. now destruct size.
  - rewrite chunks_step.
    destruct (firstn size l) as [|x chunk] eqn:E.
    + now apply firstn_nil_inv in E.
    + cbn [concat]. rewrite IH, <- E. apply firstn_skipn.
Qed.

Lemma length_chunks size l :
  (0 < size)%nat ->
  length (chunks size l) =
  (length l / size + if (length l mod size =? 0)%nat then 0 else 1)%nat.
Proof.
  intros Hs. pattern l. apply (@chunks_ind size); [exact Hs | |];
    clear l; [| intros l Hl IH].
  - rewrite chunks_step. destruct size; [lia |]. cbn [firstn length].
    rewrite Nat.Div0.div_0_l, Nat.Div0.mod_0_l. reflexivity.
  - rewrite chunks_step.
    destruct (firstn size l) as [|x chunk] eqn:E.
    + now apply firstn_nil_inv in E.
    + cbn [length]. rewrite IH, length_skipn. clear IH E.
      destruct (Nat.lt_ge_cases (length l) size) as [Hlt | Hge].
      * replace (length l - size)%nat with 0%nat by lia.
        rewrite Nat.Div0.div_0_l, Nat.Div0.mod_0_l.
        rewrite Nat.div_small, Nat.mod_small by assumption.
        destruct l; [contradiction |]. cbn. reflexivity.
      * replace (length l) with ((length l - size) + 1 * size)%nat at 3 4
          by lia.
        rewrite Nat.div_add, Nat.Div0.mod_add by lia. lia.
Qed.

Lemma last_chunks size l :
  (0 < size)%nat -> l <> [] ->
  length (last (chunks size l) []) =
  if (length l mod size =? 0)%nat then size else (length l mod size)%nat.
Proof.
  intros Hs. pattern l. apply (@chunks_ind size); [exact Hs | |];
    clear l; [contradiction | intros l Hl IH _].
  rewrite chunks_step.
  destruct (firstn size l) as [|x chunk] eqn:E.
  - now apply firstn_nil_inv in E.
  - destruct (skipn size l) as [|y rest] eqn:K.
    + rewrite chunks_step. replace (firstn size []) with (@nil byte)
        by now destruct size.
      cbn [last]. rewrite <- E.
      assert (length l <= size)%nat as Hle.
      { apply (f_equal (@length byte)) in K. rewrite length_skipn in K.
        cbn in K. lia. }
      rewrite firstn_all2 by assumption.
      destruct (Nat.eq_dec (length l) size) as [-> | Hne].
      * rewrite Nat.Div0.mod_same. reflexivity.
      * rewrite Nat.mod_small by lia.
        destruct (length l =? 0)%nat eqn:Z0; [| reflexivity].
        apply Nat.eqb_eq in Z0. destruct l; [contradiction | discriminate].
    + assert (chunks size (y :: rest) <> []) as Hne.
      { rewrite chunks_step. destruct size; [lia |]. discriminate. }
      destruct (chunks size (y :: rest)) as [|c cs] eqn:C; [contradiction |].
      change (last ((x :: chunk) :: c :: cs) []) with (last (c :: cs) []).
      rewrite IH by discriminate.
      assert (length l = length (y :: rest) + 1 * size)%nat as L.
      { rewrite <- K, length_skipn.
        apply (f_equal (@length byte)) in K. rewrite length_skipn in K.
        cbn in K. lia. }
      rewrite L, Nat.Div0.mod_add. reflexivity.
Qed.

(** ** The playback loop *)

(** A loop that ends normally has written the unread bytes chunk by
    chunk and nothing else. *)
Lemma playback_loop_normal audio_device source_stream size :
  forall n s read_buffer s' t,
    (length (st_unread s) <= n)%nat ->
    playback_loop audio_device source_stream size read_buffer s =
      Result (Normal tt) s' t ->
    t = map (write_ok (get audio_device)) (chunks size (st_unread s)).
Proof.
  induction n as [|n IH]; intros s read_buffer s' t Hn;
    rewrite playback_loop_step, loop_body_eq, chunks_step; cbv zeta;
    destruct (firstn size (st_unread s)) as [|x bytes] eqn:E;
    try (cbn; intros [= _ <-]; reflexivity).
  - apply (f_equal (@length byte)) in E. rewrite length_firstn in E.
    cbn in E. lia.
  - destruct (audio_object_write_impl _ _ _ _) as [code b'].
    cbn [fst snd]. destruct (code =? 0) eqn:C; [| discriminate].
    apply Z.eqb_eq in C. subst code. cbn [res_outcome res_state res_trace].
    destruct (playback_loop _ _ _ _ _) as [o s'' t''] eqn:R.
    unfold after. cbn. intros [= -> _ <-].
    apply IH in R.
    + rewrite R. reflexivity.
    + cbn. rewrite length_skipn.
      apply (f_equal (@length byte)) in E. rewrite length_firstn in E.
      cbn in E. lia.
Qed.

Lemma write_calls_app t1 t2 :
  write_calls (t1 ++ t2) = write_calls t1 ++ write_calls t2.
Proof. apply flat_map_app. Qed.

Lemma write_calls_write_ok object cs :
  write_calls (map (write_ok object) cs) = map (fun c => (c, length c)) cs.
Proof.
  induction cs as [|c cs IH]; [reflexivity |].
  cbn. f_equal. exact IH.
Qed.

Lemma forallb_is_write_call object cs :
  forallb is_write_call (map (write_ok object) cs) = true.
Proof. induction cs as [|c cs IH]; [reflexivity | exact IH]. Qed.

(** A playback that ends normally is the chunk writes and one drain. *)
Lemma playback_normal audio_device source_stream size read_buffer s s' t :
  playback audio_device source_stream size read_buffer s =
    Result (Normal tt) s' t ->
  t = map (write_ok (get audio_device)) (chunks size (st_unread s)) ++
      [call_audio_object_drain (get audio_device) 0].
Proof.
  unfold playback, bind.
  destruct (playback_loop _ _ _ _ _) as [[[]| |status] s1 t1] eqn:L;
    try discriminate.
  eapply playback_loop_normal in L; [| apply le_n]. subst t1.
  cbn [res_outcome res_state res_trace]. unfold audio_object_drain.
  destruct (audio_object_drain_impl _ _) as [code b']. cbn.
  unfold throw_if_error. destruct (code =? 0) eqn:C.
  - apply Z.eqb_eq in C. subst code. cbn. intros [= _ <-]. reflexivity.
  - cbn. discriminate.
Qed.

(** C2: a playback over [S] unread bytes with chunk capacity [size] that
    ends normally has made ceil(S / size) write calls; the last one
    carries [S mod size] bytes, or [size] when that is zero; every write
    call passes exactly the bytes it announces, and put end to end they
    are the bytes of the file; the trace is these writes followed by a
    single drain call. *)
Theorem playback_writes_whole_file_in_chunks
  audio_device source_stream size read_buffer s s' t :
  (0 < size)%nat ->
  playback audio_device source_stream size read_buffer s =
    Result (Normal tt) s' t ->
  let S := length (st_unread s) in
  let ws := write_calls t in
  length ws = (S / size + if (S mod size =? 0)%nat then 0 else 1)%nat /\
  ((0 < S)%nat ->
   last (map snd ws) 0%nat =
   if (S mod size =? 0)%nat then size else (S mod size)%nat) /\
  Forall (fun w => snd w = length (fst w)) ws /\
  concat (map fst ws) = st_unread s /\
  exists tw,
    t = tw ++ [call_audio_object_drain (get audio_device) 0] /\
    forallb is_write_call tw = true.
Proof.
  intros Hs H. apply playback_normal in H. subst t. cbv zeta.
  rewrite write_calls_app, write_calls_write_ok. cbn [write_calls flat_map].
  rewrite app_nil_r.
  repeat split.
  - rewrite length_map. now apply length_chunks.
  - intros Hpos. rewrite map_map. cbn [snd].
    rewrite <- (last_chunks (l := st_unread s) Hs)
      by (destruct (st_unread s); [cbn in Hpos; lia | discriminate]).
    generalize (chunks size (st_unread s)). intros cs.
    induction cs as [|c [|c' cs] IH]; [reflexivity | reflexivity |].
    exact IH.
  - apply Forall_forall. intros w Hw. apply in_map_iff in Hw.
    destruct Hw as [c [<- _]]. reflexivity.
  - rewrite map_map. cbn [fst]. rewrite map_id. now apply concat_chunks.
  - eexists. split; [reflexivity |]. apply forallb_is_write_call.
Qed.

(** ** What every computation of the program respects *)

Create HintDb wb discriminated.
Create HintDb calls.

#[local] Hint Unfold ret exit emit fopen fclose printf fprintf_stderr
  fflush_stderr perror_null create_audio_device_object audio_object_open
  audio_object_drain audio_object_close audio_object_destroy
  audio_object_strerror : calls.

Ltac wb_call :=
  intros s; autounfold with calls; cbn;
  repeat match goal with
         | |- context [match ?x with pair _ _ => _ end] => destruct x
         | |- context [match ?x with inl _ => _ | inr _ => _ end] => destruct x
         end;
  cbn; (split; [repeat constructor | reflexivity]).

Lemma wb_ret A (a : A) : well_behaved (ret a).
Proof. wb_call. Qed.

Lemma wb_exit A status : well_behaved (exit status : M A).
Proof. wb_call. Qed.

Lemma wb_fopen filename : well_behaved (fopen filename "rb").
Proof. wb_call. Qed.

Lemma wb_fclose p : well_behaved (fclose p).
Proof. wb_call. Qed.

Lemma wb_printf text : well_behaved (printf text).
Proof. wb_call. Qed.

Lemma wb_fprintf_stderr text : well_behaved (fprintf_stderr text).
Proof. wb_call. Qed.

Lemma wb_fflush_stderr : well_behaved fflush_stderr.
Proof. wb_call. Qed.

Lemma wb_perror_null : well_behaved perror_null.
Proof. wb_call. Qed.

Lemma wb_create device application description :
  well_behaved (create_audio_device_object device application description).
Proof. wb_call. Qed.

Lemma wb_open object format r c :
  well_behaved (audio_object_open object format r c).
Proof. wb_call. Qed.

Lemma wb_drain object : well_behaved (audio_object_drain object).
Proof. wb_call. Qed.

Lemma wb_close object : well_behaved (audio_object_close object).
Proof. wb_call. Qed.

Lemma wb_destroy object : well_behaved (audio_object_destroy object).
Proof. wb_call. Qed.

Lemma wb_strerror object error :
  well_behaved (audio_object_strerror object error).
Proof. wb_call. Qed.

Lemma wb_bind A B (m : M A) (k : A -> M B) :
  well_behaved m -> (forall a, well_behaved (k a)) ->
  well_behaved (bind m k).
Proof.
  intros Hm Hk s. unfold bind. destruct (Hm s) as [Tm Fm].
  destruct (m s) as [[a| |status] s1 t1]; cbn in *; auto.
  destruct (Hk a s1) as [Tk Fk]. rewrite after_trace, after_state. split.
  - apply Forall_app. auto.
  - congruence.
Qed.

Lemma wb_if A (c : bool) (m1 m2 : M A) :
  well_behaved m1 -> well_behaved m2 -> well_behaved (if c then m1 else m2).
Proof. now destruct c. Qed.

Lemma wb_scope O A (ctor : M O) (dtor : O -> M unit) (body : O -> M A) :
  well_behaved ctor -> (forall o, well_behaved (dtor o)) ->
  (forall o, well_behaved (body o)) ->
  well_behaved (scope ctor dtor body).
Proof.
  intros Hc Hd Hb. unfold scope. apply wb_bind; [exact Hc |].
  intros o s. destruct (Hb o s) as [Tb Fb].
  destruct (body o s) as [ob s1 t1]; cbn in *.
  destruct (Hd o s1) as [Td Fd].
  destruct (dtor o s1) as [od s2 t2]; cbn in *.
  assert (Forall positive_write (t1 ++ t2)) by (apply Forall_app; auto).
  assert (st_fs s2 = st_fs s) by congruence.
  destruct ob as [a| |status]; cbn; auto;
    destruct od; cbn; auto.
Qed.

#[local] Hint Resolve wb_ret wb_exit wb_fopen wb_fclose wb_printf
  wb_fprintf_stderr wb_fflush_stderr wb_perror_null wb_create wb_open
  wb_drain wb_close wb_destroy wb_strerror wb_bind wb_if wb_scope : wb.

Lemma wb_throw_if_error error_source error_code :
  well_behaved (throw_if_error error_source error_code).
Proof. unfold throw_if_error. auto 6 with wb. Qed.

Lemma wb_auto_handle_ctor handle : well_behaved (auto_handle_ctor handle).
Proof. unfold auto_handle_ctor. auto with wb. Qed.

Lemma wb_auto_handle_dtor deleter this :
  (forall p, well_behaved (deleter p)) ->
  well_behaved (auto_handle_dtor deleter this).
Proof. intros H. unfold auto_handle_dtor. auto with wb. Qed.

#[local] Hint Resolve wb_throw_if_error wb_auto_handle_ctor
  wb_auto_handle_dtor : wb.

Lemma wb_stream_ctor target_device format r c :
  well_behaved (stream_ctor target_device format r c).
Proof. unfold stream_ctor, stream_open. auto 6 with wb. Qed.

Lemma wb_stream_dtor this : well_behaved (stream_dtor this).
Proof. unfold stream_dtor, stream_close. auto with wb. Qed.

Lemma playback_event_positive_write e : playback_event e -> positive_write e.
Proof. now destruct e. Qed.

(** The loop only writes and reports, leaves the file system alone, and
    ends normally or by [std::exit] with [EXIT_FAILURE]. *)
Lemma playback_loop_events_bounded audio_device source_stream size :
  forall n s read_buffer,
    (length (st_unread s) <= n)%nat ->
    let r := playback_loop audio_device source_stream size read_buffer s in
    Forall playback_event (res_trace r) /\
    st_fs (res_state r) = st_fs s /\
    (res_outcome r = Normal tt \/ res_outcome r = Exited EXIT_FAILURE).
Proof.
  induction n as [|n IH]; intros s read_buffer Hn; cbv zeta;
    rewrite playback_loop_step, loop_body_eq; cbv zeta;
    destruct (firstn size (st_unread s)) as [|x bytes] eqn:E;
    try (cbn; split; [constructor | split; [reflexivity | now left]]).
  - apply (f_equal (@length byte)) in E. rewrite length_firstn in E.
    cbn in E. lia.
  - assert (playback_event
              (call_audio_object_write (get audio_device) (x :: bytes)
                 (length (x :: bytes))
                 (fst (audio_object_write_impl (st_backend s)
                         (get audio_device) (x :: bytes)
                         (length (x :: bytes)))))) as Hw
      by (cbn; lia).
    destruct (fst (audio_object_write_impl _ _ _ _) =? 0).
    + cbn [res_outcome res_state res_trace].
      rewrite after_trace, after_state, after_outcome.
      match goal with
      | |- context [playback_loop _ _ _ ?b ?s2] =>
          destruct (IH s2 b) as (Tr & Fr & Or)
      end.
      * cbn. rewrite length_skipn.
        apply (f_equal (@length byte)) in E. rewrite length_firstn in E.
        cbn in E. lia.
      * split; [constructor; assumption |].
        split; [rewrite Fr; reflexivity | exact Or].
    + cbn [res_outcome res_state res_trace].
      split; [constructor; [exact Hw | repeat constructor] |].
      split; [reflexivity | now right].
Qed.

Lemma wb_playback_loop audio_device source_stream size read_buffer :
  well_behaved (playback_loop audio_device source_stream size read_buffer).
Proof.
  intros s.
  destruct (@playback_loop_events_bounded audio_device source_stream size
              _ s read_buffer (le_n _)) as (T & F & _).
  split; [| exact F].
  eapply Forall_impl; [apply playback_event_positive_write | exact T].
Qed.

(** The same for the loop followed by the drain. *)
Lemma playback_events audio_device source_stream size read_buffer s :
  let r := playback audio_device source_stream size read_buffer s in
  Forall playback_event (res_trace r) /\
  (res_outcome r = Normal tt \/ res_outcome r = Exited EXIT_FAILURE).
Proof.
  cbv zeta. unfold playback, bind.
  destruct (@playback_loop_events_bounded audio_device source_stream size
              _ s read_buffer (le_n _)) as (T & _ & O).
  destruct (playback_loop _ _ _ _ _) as [o s1 t1]. cbn in T, O.
  destruct O as [-> | ->]; [| split; [exact T | now right]].
  unfold audio_object_drain.
  destruct (audio_object_drain_impl _ _) as [code b']. cbn.
  unfold throw_if_error. destruct (code =? 0); cbn.
  - split; [| now left].
    apply Forall_app. split; [exact T | repeat constructor].
  - split; [| now right].
    apply Forall_app. split; [exact T | repeat constructor].
Qed.



#[local] Hint Resolve wb_stream_ctor wb_stream_dtor wb_playback_loop : wb.

Lemma wb_playback audio_device source_stream size read_buffer :
  well_behaved (playback audio_device source_stream size read_buffer).
Proof. unfold playback. auto 6 with wb. Qed.

Lemma wb_acquire_resources A audio_filename
  (body : file -> device -> stream -> M A) :
  (forall f d k, well_behaved (body f d k)) ->
  well_behaved (acquire_resources audio_filename body).
Proof.
  intros H. unfold acquire_resources, file_dtor, device_dtor, device_deleter.
  repeat match goal with
         | |- forall _, well_behaved _ => intro
         | |- well_behaved (scope _ _ _) => apply wb_scope
         | |- well_behaved (bind _ _) => apply wb_bind
         | |- well_behaved (if _ then _ else _) => apply wb_if
         end; auto with wb.
Qed.

Lemma wb_main argv : well_behaved (main argv).
Proof.
  unfold main. apply wb_if; [auto with wb |].
  apply wb_acquire_resources. intros. apply wb_playback.
Qed.

(** ** Scopes *)

(** The three declarations of [main] when the file opens: the calls
    made, and what happens at the end of the block. *)
Lemma acquire_resources_run A audio_filename
  (body : file -> device -> stream -> M A) s content d b1 code b2 :
  st_fs s audio_filename = inr content ->
  create_audio_device_object_impl (st_backend s) None "pcaudiolib-example"
    "raw-audio-player" = (d, b1) ->
  audio_object_open_impl b1 d AUDIO_OBJECT_FORMAT_S16LE 44100 1 = (code, b2) ->
  acquire_resources audio_filename body s =
  let test_file := mk_auto_handle (ptr fopen_address) in
  let audio_device := mk_auto_handle d in
  let opened := acquired audio_filename (ptr fopen_address) d code in
  let s2 := mkState (st_fs s) (st_errno s) content b2 in
  if code =? 0 then
    let r := body test_file audio_device (mk_stream audio_device) s2 in
    match res_outcome r with
    | Exited status => after opened r
    | block_end =>
        let b3 := audio_object_close_impl (st_backend (res_state r)) d in
        let b4 := if is_null d then b3 else audio_object_destroy_impl b3 d in
        Result block_end (with_backend (res_state r) b4)
          (opened ++ res_trace r ++ released (ptr fopen_address) d)
    end
  else
    let text := audio_object_strerror_impl b2 d code in
    Result (Exited EXIT_FAILURE) s2
      (opened ++
       [call_audio_object_strerror d code text;
        write_stderr (text ++ newline)%string]).
Proof.
  intros Hf Hc Ho.
  unfold acquired, released, acquire_resources, scope, fopen, create_audio_device_object,
    stream_ctor, stream_open, audio_object_open, auto_handle_ctor, ret,
    file_dtor, device_dtor, device_deleter, auto_handle_dtor, stream_dtor,
    stream_close, audio_object_close, audio_object_destroy, fclose, emit,
    bind.
  change (to_uint32 rate) with 44100. change (to_uint8 channels) with 1.
  rewrite Hf. cbn. rewrite Hc. cbn.
  rewrite Ho. cbn. unfold throw_if_error.
  destruct (code =? 0) eqn:C; cbn; [| reflexivity].
  destruct (body _ _ _ _) as [[a| |status] s3 t3]; destruct d; cbn;
    repeat rewrite <- app_assoc; reflexivity.
Qed.

(** When the block ends the process, the three objects add no call
    after it: no destructor runs. *)
Lemma exit_skips_destructors A audio_filename
  (body : file -> device -> stream -> M A) s content d b1 b2 status :
  st_fs s audio_filename = inr content ->
  create_audio_device_object_impl (st_backend s) None "pcaudiolib-example"
    "raw-audio-player" = (d, b1) ->
  audio_object_open_impl b1 d AUDIO_OBJECT_FORMAT_S16LE 44100 1 = (0, b2) ->
  let block :=
    body (mk_auto_handle (ptr fopen_address)) (mk_auto_handle d)
      (mk_stream (mk_auto_handle d))
      (mkState (st_fs s) (st_errno s) content b2) in
  res_outcome block = Exited status ->
  acquire_resources audio_filename body s =
  after (acquired audio_filename (ptr fopen_address) d 0) block.
Proof.
  intros Hf Hc Ho block Hblock.
  rewrite (acquire_resources_run _ _ _ Hf Hc Ho). cbv zeta.
  cbn [Z.eqb]. fold block. rewrite Hblock. reflexivity.
Qed.

Lemma buffer_size_in_bytes_value : buffer_size_in_bytes = 88200.
Proof. reflexivity. Qed.

(** X8: a run of [main] in which the file opens, the device is created,
    the stream opens and the playback succeeds is exactly: the three
    acquisitions, one successful write for each successive chunk of
    [buffer_size_in_bytes] (88200) bytes of the file, one drain, then
    close, destroy and [std::fclose]; it returns normally. *)
Lemma main_successful_run argv s content a b1 b2 s' t :
  length argv = 2%nat ->
  let audio_filename := nth 1 argv ""%string in
  st_fs s audio_filename = inr content ->
  create_audio_device_object_impl (st_backend s) None "pcaudiolib-example"
    "raw-audio-player" = (ptr a, b1) ->
  audio_object_open_impl b1 (ptr a) AUDIO_OBJECT_FORMAT_S16LE 44100 1
    = (0, b2) ->
  playback (mk_auto_handle (ptr a)) (ptr fopen_address)
    (Z.to_nat buffer_size_in_bytes) indeterminate
    (mkState (st_fs s) (st_errno s) content b2) = Result (Normal tt) s' t ->
  res_outcome (main argv s) = Normal tt /\
  res_trace (main argv s) =
    [call_fopen audio_filename "rb" (ptr fopen_address);
     call_create_audio_device_object None "pcaudiolib-example"
       "raw-audio-player" (ptr a);
     call_audio_object_open (ptr a) AUDIO_OBJECT_FORMAT_S16LE 44100 1 0] ++
    map (write_ok (ptr a)) (chunks (Z.to_nat buffer_size_in_bytes) content) ++
    [call_audio_object_drain (ptr a) 0;
     call_audio_object_close (ptr a);
     call_audio_object_destroy (ptr a);
     call_fclose (ptr fopen_address)].
Proof.
  intros Hargc audio_filename Hf Hc Ho Hp.
  pose proof (playback_normal _ _ _ _ _ Hp) as Ht. cbn [get st_unread] in Ht.
  unfold main. rewrite Hargc. cbn [Z.of_nat Pos.of_succ_nat Pos.succ
    Z.eqb Pos.eqb negb].
  fold audio_filename.
  rewrite (acquire_resources_run _ _ _ Hf Hc Ho). cbv zeta.
  cbn [Z.eqb get is_null]. rewrite Hp. cbn [res_outcome res_state res_trace].
  split; [reflexivity |]. rewrite Ht, <- !app_assoc. reflexivity.
Qed.

(** Every run of [main] has one of five shapes: the usage text; the
    report of a file that does not open; the report of a failed open;
    a playback that exits on a failed write or drain; a playback that
    completes, followed by the three releases. *)
Lemma main_run_shape argv s :
  let r := main argv s in
  let audio_filename := nth 1 argv ""%string in
  let f := ptr fopen_address in
  (res_outcome r = Exited EXIT_SUCCESS /\ res_trace r = [write_stdout usage])
  \/
  (res_outcome r = Exited EXIT_FAILURE /\
   exists e,
     res_trace r =
     [call_fopen audio_filename "rb" nullptr;
      write_stderr ("Unable to load: " ++ audio_filename ++ newline)%string;
      call_fflush_stderr;
      write_stderr (strerror e ++ newline)%string])
  \/
  (res_outcome r = Exited EXIT_FAILURE /\
   exists d code text,
     code <> 0 /\
     res_trace r =
     acquired audio_filename f d code ++
     [call_audio_object_strerror d code text;
      write_stderr (text ++ newline)%string])
  \/
  (res_outcome r = Exited EXIT_FAILURE /\
   exists d tp,
     Forall playback_event tp /\
     res_trace r = acquired audio_filename f d 0 ++ tp)
  \/
  (res_outcome r = Normal tt /\
   exists d tp,
     Forall playback_event tp /\
     res_trace r = acquired audio_filename f d 0 ++ tp ++ released f d).
Proof.
  cbv zeta. unfold main.
  destruct (negb (Z.of_nat (length argv) =? 2)).
  { left. split; reflexivity. }
  right. set (audio_filename := nth 1 argv ""%string).
  destruct (st_fs s audio_filename) as [e | content] eqn:Hf.
  { left. unfold acquire_resources, scope, bind, fopen. rewrite Hf.
    split; [reflexivity | exists e; reflexivity]. }
  right.
  destruct (create_audio_device_object_impl (st_backend s) None
              "pcaudiolib-example" "raw-audio-player") as [d b1] eqn:Hc.
  destruct (audio_object_open_impl b1 d AUDIO_OBJECT_FORMAT_S16LE 44100 1)
    as [code b2] eqn:Ho.
  rewrite (acquire_resources_run _ _ _ Hf Hc Ho). cbv zeta.
  destruct (code =? 0) eqn:C.
  - right. apply Z.eqb_eq in C. subst code.
    match goal with
    | |- context [playback ?dev ?src ?size ?buf ?s2] =>
        destruct (playback_events dev src size buf s2) as (T & O);
        destruct (playback dev src size buf s2) as [o s3 tp]
    end.
    cbn in T, O. destruct O as [-> | ->].
    + right. cbn [res_outcome res_trace].
      split; [reflexivity |]. exists d, tp. split; [exact T | reflexivity].
    + left. cbn [res_outcome res_trace after].
      split; [reflexivity |]. exists d, tp. split; [exact T | reflexivity].
  - left. apply Z.eqb_neq in C. cbn [res_outcome res_trace].
    split; [reflexivity |]. eexists d, code, _.
    split; [exact C | reflexivity].
Qed.

Lemma filter_release_playback t :
  Forall playback_event t -> filter is_release_call t = [].
Proof.
  induction 1 as [|e t He _ IH]; [reflexivity |].
  cbn. rewrite IH. now destruct e.
Qed.

(** X9: a run of [main] that ends by [std::exit], whatever the status
    and whatever the cause (usage, unreadable file, failed open, write
    or drain), has made no [audio_object_close], [audio_object_destroy]
    or [std::fclose] call. *)
Lemma exited_main_releases_nothing argv s status :
  res_outcome (main argv s) = Exited status ->
  filter is_release_call (res_trace (main argv s)) = [].
Proof.
  intros Hexit.
  destruct (main_run_shape argv s)
    as [[_ ->] | [[_ [e ->]] | [(_ & d & code & text & _ & ->)
       | [(_ & d & tp & T & ->) | (O & _)]]]];
    try reflexivity.
  - unfold acquired. rewrite filter_app, (filter_release_playback T).
    reflexivity.
  - rewrite O in Hexit. discriminate.
Qed.

Lemma count_app p t1 t2 : count p (t1 ++ t2) = (count p t1 + count p t2)%nat.
Proof. unfold count. now rewrite filter_app, length_app. Qed.

Lemma count_cons p e t :
  count p (e :: t) = ((if p e then 1 else 0) + count p t)%nat.
Proof. unfold count. cbn. now destruct (p e). Qed.

(** ** Error signalling *)

(** C3: with error code zero [throw_if_error] does nothing.  With any
    other code it asks the backend for the error text, writes that text
    and a newline to standard error, and ends the process with
    [EXIT_FAILURE]; whatever follows the call is never run.  When the
    write of the second chunk fails, a playback consists of the first
    write, the failed write and the report, and no drain call. *)
Theorem throw_if_error_signals :
  (forall error_source s,
     throw_if_error error_source 0 s = Result (Normal tt) s []) /\
  (forall error_source error_code s A (k : unit -> M A),
     error_code <> 0 ->
     let text :=
       audio_object_strerror_impl (st_backend s) error_source error_code in
     let report :=
       [call_audio_object_strerror error_source error_code text;
        write_stderr (text ++ newline)%string] in
     throw_if_error error_source error_code s =
       Result (Exited EXIT_FAILURE) s report /\
     bind (throw_if_error error_source error_code) k s =
       Result (Exited EXIT_FAILURE) s report) /\
  (forall audio_device source_stream size read_buffer s b1 code b2,
     let first := firstn size (st_unread s) in
     let second := firstn size (skipn size (st_unread s)) in
     second <> [] ->
     audio_object_write_impl (st_backend s) (get audio_device) first
       (length first) = (0, b1) ->
     audio_object_write_impl b1 (get audio_device) second (length second)
       = (code, b2) ->
     code <> 0 ->
     let text := audio_object_strerror_impl b2 (get audio_device) code in
     let r := playback audio_device source_stream size read_buffer s in
     res_outcome r = Exited EXIT_FAILURE /\
     res_trace r =
       [write_ok (get audio_device) first;
        call_audio_object_write (get audio_device) second (length second)
          code;
        call_audio_object_strerror (get audio_device) code text;
        write_stderr (text ++ newline)%string] /\
     count is_drain_call (res_trace r) = 0%nat).
Proof.
  split; [| split].
  - intros. apply throw_if_error_zero.
  - intros error_source error_code s A k H. cbv zeta.
    pose proof (throw_if_error_nonzero error_source s H) as E.
    cbv zeta in E. split; [exact E |]. unfold bind. rewrite E. reflexivity.
  - intros audio_device source_stream size read_buffer s b1 code b2.
    cbv zeta. intros Hsecond W1 W2 Hcode.
    assert (playback audio_device source_stream size read_buffer s =
            Result (Exited EXIT_FAILURE)
              (mkState (st_fs s) (st_errno s)
                 (skipn size (skipn size (st_unread s))) b2)
              [write_ok (get audio_device) (firstn size (st_unread s));
               call_audio_object_write (get audio_device)
                 (firstn size (skipn size (st_unread s)))
                 (length (firstn size (skipn size (st_unread s)))) code;
               call_audio_object_strerror (get audio_device) code
                 (audio_object_strerror_impl b2 (get audio_device) code);
               write_stderr
                 (audio_object_strerror_impl b2 (get audio_device) code ++
                  newline)%string]) as R.
    { unfold playback, bind.
      rewrite playback_loop_step, loop_body_eq. cbv zeta.
      destruct (firstn size (st_unread s)) as [|x bytes] eqn:E1.
      - exfalso. apply Hsecond.
        destruct size; [reflexivity |].
        destruct (st_unread s); [reflexivity | discriminate].
      - rewrite W1. cbn [fst snd Z.eqb res_outcome res_state res_trace].
        rewrite playback_loop_step, loop_body_eq. cbv zeta.
        cbn [st_unread st_backend st_fs st_errno with_backend].
        destruct (firstn size (skipn size (st_unread s))) as [|y bytes2] eqn:E2;
          [contradiction |].
        rewrite W2. cbn [fst snd].
        apply Z.eqb_neq in Hcode. rewrite Hcode. reflexivity. }
    rewrite R. repeat split.
Qed.

(** ** The stream guard *)

(** C4: once [audio_object_open] has answered zero, a [stream] object
    whose block is left normally or by an exception has made one open
    call, before the block, and one close call, after it.  The
    destructor always makes exactly that close call and always
    completes. *)
Theorem stream_guard_opens_and_closes_once
  A (target_device : device) format r c (body : stream -> M A) s b1 :
  audio_object_open_impl (st_backend s) (get target_device) format
    (to_uint32 r) (to_uint8 c) = (0, b1) ->
  let block := body (mk_stream target_device) (with_backend s b1) in
  (forall status, res_outcome block <> Exited status) ->
  let whole :=
    scope (stream_ctor target_device format r c) stream_dtor body s in
  res_outcome whole = res_outcome block /\
  res_trace whole =
    call_audio_object_open (get target_device) format (to_uint32 r)
      (to_uint8 c) 0
    :: res_trace block ++ [call_audio_object_close (get target_device)] /\
  count is_open_call (res_trace whole) =
    S (count is_open_call (res_trace block)) /\
  count is_close_call (res_trace whole) =
    S (count is_close_call (res_trace block)) /\
  (forall this s0,
     res_outcome (stream_dtor this s0) = Normal tt /\
     res_trace (stream_dtor this s0) =
       [call_audio_object_close (get (parent_device this))]).
Proof.
  intros Ho block Hblock whole. subst whole. revert Hblock. subst block.
  unfold scope, stream_ctor, stream_open, stream_dtor, stream_close,
    audio_object_open, audio_object_close, ret, bind.
  cbn [parent_device]. rewrite Ho. cbn -[to_uint32 to_uint8].
  destruct (body _ _) as [[a| |status] s2 t2];
    cbn -[to_uint32 to_uint8 count];
    intros Hblock; try (now elim (Hblock status));
    (repeat split; rewrite count_cons, count_app; cbn; lia).
Qed.

(** ** The device handle *)

(** C7: a [device] object whose block is left normally or by an
    exception makes one [audio_object_destroy] call on its handle after
    the block when the handle is not null, and no call at all when it
    is null; it never calls [audio_object_close]. *)
Theorem device_handle_destroys_once
  A (handle : pointer) (body : device -> M A) s :
  let block := body (mk_auto_handle handle) s in
  (forall status, res_outcome block <> Exited status) ->
  let whole := scope (auto_handle_ctor handle) device_dtor body s in
  res_outcome whole = res_outcome block /\
  res_trace whole =
    res_trace block ++
    (if is_null handle then [] else [call_audio_object_destroy handle]) /\
  count is_destroy_call (res_trace whole) =
    (count is_destroy_call (res_trace block) +
     if is_null handle then 0 else 1)%nat /\
  count is_close_call (res_trace whole) =
    count is_close_call (res_trace block).
Proof.
  intros block Hblock whole. subst whole. revert Hblock. subst block.
  unfold scope, auto_handle_ctor, device_dtor, auto_handle_dtor,
    device_deleter, audio_object_destroy, ret, bind.
  cbn.
  destruct (body _ _) as [[a| |status] s2 t2]; cbn; intros Hblock;
    try (now elim (Hblock status));
    destruct handle; cbn -[count]; rewrite ?app_nil_r;
    (repeat split; unfold count; rewrite ?filter_app, ?length_app; cbn; lia).
Qed.

(** ** Order of acquisition and release *)


(** ** The file that cannot be opened *)

(** C6: when [main] is given one argument and [std::fopen] fails on it,
    the program writes [Unable to load: ] with the file name to
    standard error, flushes it, writes the description of [errno], and
    exits with [EXIT_FAILURE]; it makes no backend call. *)
Theorem main_reports_unopenable_file argv s e :
  length argv = 2%nat ->
  let audio_filename := nth 1 argv ""%string in
  st_fs s audio_filename = inl e ->
  main argv s =
    Result (Exited EXIT_FAILURE)
      (mkState (st_fs s) e (st_unread s) (st_backend s))
      [call_fopen audio_filename "rb" nullptr;
       write_stderr ("Unable to load: " ++ audio_filename ++ newline)%string;
       call_fflush_stderr;
       write_stderr (strerror e ++ newline)%string] /\
  count is_backend_call (res_trace (main argv s)) = 0%nat.
Proof.
  intros Hargc audio_filename Hf.
  assert (main argv s =
          Result (Exited EXIT_FAILURE)
            (mkState (st_fs s) e (st_unread s) (st_backend s))
            [call_fopen audio_filename "rb" nullptr;
             write_stderr
               ("Unable to load: " ++ audio_filename ++ newline)%string;
             call_fflush_stderr;
             write_stderr (strerror e ++ newline)%string]) as E.
  { unfold main. rewrite Hargc. cbn [Z.of_nat Pos.of_succ_nat Pos.succ
      Z.eqb Pos.eqb negb].
    fold audio_filename.
    unfold acquire_resources, scope, bind, fopen. rewrite Hf. reflexivity. }
  rewrite E. split; reflexivity.
Qed.

(** ** Two runs *)

(** What a run leaves behind for the next one is the file system.  An
    open for writing is seen by the next run: the file is empty. *)
Lemma fopen_for_writing_changes_file_system filename s x content :
  st_fs s filename = inr (x :: content) ->
  st_fs (res_state (fopen filename "wb" s)) filename = inr [] /\
  st_fs (res_state (fopen filename "wb" s)) <> st_fs s.
Proof.
  intros Hf.
  assert (st_fs (res_state (fopen filename "wb" s)) filename = inr []) as E.
  { unfold fopen. rewrite Hf. cbn. unfold with_file.
    now rewrite String.eqb_refl. }
  split; [exact E |].
  intros H. rewrite H, Hf in E. discriminate.
Qed.

(** C8: [main] opens its file for reading only and leaves the file
    system as it found it, so it keeps no state from one run to the
    next: a second run of the program, started as a new process on the
    file system the first run left behind and with a backend that
    answers as in the first run, ends the same way and makes the same
    calls and the same output. *)
Theorem main_twice_same_result fs b argv :
  let first := main argv (initial_state fs b) in
  let second := main argv (initial_state (st_fs (res_state first)) b) in
  st_fs (res_state first) = fs /\
  res_outcome second = res_outcome first /\
  res_trace second = res_trace first /\
  st_fs (res_state second) = fs.
Proof.
  cbv zeta.
  destruct (wb_main argv (initial_state fs b)) as [_ F].
  cbn [initial_state st_fs] in F. rewrite F.
  repeat split; exact F.
Qed.

(** ** Byte counts *)

(** C9: every [audio_object_write] call the program makes passes a byte
    count of at least one. *)
Theorem main_never_writes_zero_bytes argv s :
  Forall positive_write (res_trace (main argv s)).
Proof. apply wb_main. Qed.

(** ** The null device *)

(** C10: when the file opens and [create_audio_device_object] returns a
    null handle, the next call of the program is [audio_object_open] on
    that null handle. *)
Theorem main_opens_null_device argv s content b1 :
  length argv = 2%nat ->
  let audio_filename := nth 1 argv ""%string in
  st_fs s audio_filename = inr content ->
  create_audio_device_object_impl (st_backend s) None "pcaudiolib-example"
    "raw-audio-player" = (nullptr, b1) ->
  exists rest,
    res_trace (main argv s) =
    call_fopen audio_filename "rb" (ptr fopen_address)
    :: call_create_audio_device_object None "pcaudiolib-example"
         "raw-audio-player" nullptr
    :: call_audio_object_open nullptr AUDIO_OBJECT_FORMAT_S16LE 44100 1
         (fst (audio_object_open_impl b1 nullptr AUDIO_OBJECT_FORMAT_S16LE
                 44100 1))
    :: rest.
Proof.
  intros Hargc audio_filename Hf Hc.
  destruct (audio_object_open_impl b1 nullptr AUDIO_OBJECT_FORMAT_S16LE
              44100 1) as [code b2] eqn:Ho.
  unfold main. rewrite Hargc. cbn [Z.of_nat Pos.of_succ_nat Pos.succ
    Z.eqb Pos.eqb negb].
  fold audio_filename.
  rewrite (acquire_resources_run _ _ _ Hf Hc Ho). cbv zeta. cbn [fst].
  destruct (code =? 0); [| eexists; reflexivity].
  destruct (res_outcome (playback _ _ _ _ _)); rewrite ?after_trace;
    eexists; reflexivity.
Qed.

End Proofs.

(** * Further properties of the program *)

Section Coverage.

Context {backend : Backend} {platform : Platform}.

(** ** Every run of the playback loop *)

(** What the loop has done when it stops: it has written the chunks
    [written], all successfully, and either found nothing more to read,
    or failed to write one more chunk [c] and reported it.  The bytes
    handed to the backend followed by the bytes still unread are the
    bytes that were unread at the start. *)
Lemma playback_loop_trace audio_device source_stream size :
  forall n s read_buffer,
    (length (st_unread s) <= n)%nat ->
    let r := playback_loop audio_device source_stream size read_buffer s in
    let d := get audio_device in
    exists written,
      Forall (fun c => 1 <= length c <= size)%nat written /\
      ((res_outcome r = Normal tt /\
        res_trace r = map (write_ok d) written /\
        concat written ++ st_unread (res_state r) = st_unread s /\
        firstn size (st_unread (res_state r)) = [])
       \/
       (exists c code,
          code <> 0 /\ (1 <= length c <= size)%nat /\
          res_outcome r = Exited EXIT_FAILURE /\
          res_trace r =
            map (write_ok d) written ++
            call_audio_object_write d c (length c) code ::
            report d code
              (audio_object_strerror_impl (st_backend (res_state r)) d code)
          /\
          concat written ++ c ++ st_unread (res_state r) = st_unread s)).
Proof.
  induction n as [|n IH]; intros s read_buffer Hn; cbv zeta;
    rewrite playback_loop_step, loop_body_eq; cbv zeta;
    destruct (firstn size (st_unread s)) as [|x bytes] eqn:E.
  1, 3: exists []; split; [constructor |]; left;
    cbn [res_outcome res_state res_trace st_unread map concat app];
    assert (skipn size (st_unread s) = st_unread s) as K
      by (rewrite <- (firstn_skipn size (st_unread s)) at 2;
          rewrite E; reflexivity);
    rewrite K; repeat split; assumption.
  - apply (f_equal (@length byte)) in E. rewrite length_firstn in E.
    cbn in E. lia.
  - assert (1 <= length (x :: bytes) <= size)%nat as Hc.
    { rewrite <- E, length_firstn. apply (f_equal (@length byte)) in E.
      rewrite length_firstn in E. cbn in E. lia. }
    assert (x :: bytes ++ skipn size (st_unread s) = st_unread s) as Hsplit.
    { change (x :: bytes ++ skipn size (st_unread s))
        with ((x :: bytes) ++ skipn size (st_unread s)).
      rewrite <- E. apply firstn_skipn. }
    destruct (audio_object_write_impl _ _ _ _) as [code b'] eqn:W.
    cbn [fst snd]. destruct (code =? 0) eqn:C.
    + apply Z.eqb_eq in C. subst code.
      cbn [res_outcome res_state res_trace].
      rewrite after_outcome, after_state, after_trace.
      match goal with
      | |- context [playback_loop _ _ _ ?b ?s2] =>
          destruct (IH s2 b) as (written & Hw & Hr)
      end.
      { cbn. rewrite length_skipn.
        apply (f_equal (@length byte)) in E. rewrite length_firstn in E.
        cbn in E. lia. }
      cbv zeta in Hr. cbn [st_unread with_backend] in Hr.
      exists ((x :: bytes) :: written). split; [constructor; assumption |].
      destruct Hr as [(O & T & Hcat & Hend)
                     | (c & code & Hcode & Hlen & O & T & Hcat)].
      * left. rewrite O, T. repeat split; [| exact Hend].
        cbn [concat]. rewrite <- app_assoc, Hcat. exact Hsplit.
      * right. exists c, code. rewrite O, T.
        repeat split; try assumption; try lia.
        cbn [concat]. rewrite <- app_assoc, Hcat. exact Hsplit.
    + apply Z.eqb_neq in C. exists []. split; [constructor |].
      right. exists (x :: bytes), code.
      cbn [res_outcome res_state res_trace st_unread st_backend with_backend
           map concat app].
      repeat split; try assumption; lia.
Qed.

(** The same for the loop followed by the drain: the drain call comes
    after the last chunk, when nothing is left to read. *)
Lemma playback_trace audio_device source_stream size read_buffer s :
  let r := playback audio_device source_stream size read_buffer s in
  let d := get audio_device in
  exists written,
    Forall (fun c => 1 <= length c <= size)%nat written /\
    ((exists code,
        res_outcome r = (if code =? 0 then Normal tt else Exited EXIT_FAILURE)
        /\
        res_trace r =
          map (write_ok d) written ++
          call_audio_object_drain d code ::
          (if code =? 0 then []
           else report d code
                  (audio_object_strerror_impl (st_backend (res_state r)) d
                     code))
        /\
        concat written ++ st_unread (res_state r) = st_unread s /\
        firstn size (st_unread (res_state r)) = [])
     \/
     (exists c code,
        code <> 0 /\ (1 <= length c <= size)%nat /\
        res_outcome r = Exited EXIT_FAILURE /\
        res_trace r =
          map (write_ok d) written ++
          call_audio_object_write d c (length c) code ::
          report d code
            (audio_object_strerror_impl (st_backend (res_state r)) d code)
        /\
        concat written ++ c ++ st_unread (res_state r) = st_unread s)).
Proof.
  cbv zeta. unfold playback, bind.
  destruct (@playback_loop_trace audio_device source_stream size _ s
              read_buffer (le_n _)) as (written & Hw & Hr).
  cbv zeta in Hr. exists written. split; [exact Hw |].
  destruct (playback_loop _ _ _ _ _) as [o s1 t1].
  cbn [res_outcome res_state res_trace] in Hr.
  destruct Hr as [(-> & -> & Hcat & Hend)
                 | (c & code & Hcode & Hlen & -> & -> & Hcat)].
  - left. unfold audio_object_drain.
    destruct (audio_object_drain_impl _ _) as [code b']. exists code.
    cbn [after res_outcome res_state res_trace]. unfold throw_if_error.
    destruct (code =? 0); cbn; repeat split; assumption.
  - right. exists c, code. repeat split; try assumption; lia.
Qed.

Lemma write_calls_report d code text : write_calls (report d code text) = [].
Proof. reflexivity. Qed.

(** The write calls of a playback, as data and byte count. *)
Lemma playback_write_calls audio_device source_stream size read_buffer s :
  let r := playback audio_device source_stream size read_buffer s in
  exists cs,
    Forall (fun c => 1 <= length c <= size)%nat cs /\
    write_calls (res_trace r) = map (fun c => (c, length c)) cs /\
    concat cs ++ st_unread (res_state r) = st_unread s.
Proof.
  cbv zeta.
  destruct (playback_trace audio_device source_stream size read_buffer s)
    as (written & Hw & [(code & _ & -> & Hcat & _)
                       | (c & code & _ & Hlen & _ & -> & Hcat)]).
  - exists written. split; [exact Hw |]. split; [| exact Hcat].
    rewrite write_calls_app, write_calls_write_ok.
    destruct (code =? 0); cbn; now rewrite app_nil_r.
  - exists (written ++ [c]). split.
    + apply Forall_app. split; [exact Hw | constructor; [exact Hlen |]].
      constructor.
    + rewrite write_calls_app, write_calls_write_ok, map_app, concat_app.
      cbn. rewrite app_nil_r, <- app_assoc. split; [reflexivity | exact Hcat].
Qed.

(** X1: in every run of the playback loop and drain, whether it
    succeeds or stops on an error, the bytes handed to
    [audio_object_write], in the order of the calls, followed by the
    bytes of the file not yet read, are exactly the bytes that were
    unread at the start: nothing is skipped, repeated or reordered. *)
Theorem playback_conserves_bytes
  audio_device source_stream size read_buffer s :
  let r := playback audio_device source_stream size read_buffer s in
  concat (map fst (write_calls (res_trace r))) ++ st_unread (res_state r) =
  st_unread s.
Proof.
  cbv zeta.
  destruct (playback_write_calls audio_device source_stream size read_buffer s)
    as (cs & _ & -> & Hcat).
  rewrite map_map. cbn [fst]. rewrite map_id. exact Hcat.
Qed.

(** ** Every run of [main] *)

(** The runs of [main], by what decides them: the argument count, the
    result of [std::fopen], the result of [audio_object_open], and then
    the playback. *)
Lemma main_runs argv s :
  let r := main argv s in
  let audio_filename := nth 1 argv ""%string in
  let f := ptr fopen_address in
  (length argv <> 2%nat /\
   r = Result (Exited EXIT_SUCCESS) s [write_stdout usage])
  \/
  (length argv = 2%nat /\
   exists e,
     st_fs s audio_filename = inl e /\
     r = Result (Exited EXIT_FAILURE)
           (mkState (st_fs s) e (st_unread s) (st_backend s))
           [call_fopen audio_filename "rb" nullptr;
            write_stderr
              ("Unable to load: " ++ audio_filename ++ newline)%string;
            call_fflush_stderr;
            write_stderr (strerror e ++ newline)%string])
  \/
  (length argv = 2%nat /\
   exists content d b1 code b2,
     st_fs s audio_filename = inr content /\
     create_audio_device_object_impl (st_backend s) None "pcaudiolib-example"
       "raw-audio-player" = (d, b1) /\
     audio_object_open_impl b1 d AUDIO_OBJECT_FORMAT_S16LE 44100 1
       = (code, b2) /\
     code <> 0 /\
     r = Result (Exited EXIT_FAILURE)
           (mkState (st_fs s) (st_errno s) content b2)
           (acquired audio_filename f d code ++
            report d code (audio_object_strerror_impl b2 d code)))
  \/
  (length argv = 2%nat /\
   exists content d b1 b2,
     st_fs s audio_filename = inr content /\
     create_audio_device_object_impl (st_backend s) None "pcaudiolib-example"
       "raw-audio-player" = (d, b1) /\
     audio_object_open_impl b1 d AUDIO_OBJECT_FORMAT_S16LE 44100 1 = (0, b2) /\
     let p :=
       playback (mk_auto_handle d) f (Z.to_nat buffer_size_in_bytes)
         indeterminate (mkState (st_fs s) (st_errno s) content b2) in
     res_outcome r = res_outcome p /\
     res_trace r =
       acquired audio_filename f d 0 ++ res_trace p ++
       match res_outcome p with
       | Exited _ => []
       | _ => released f d
       end).
Proof.
  cbv zeta. unfold main.
  destruct (Nat.eq_dec (length argv) 2) as [Hargc | Hargc].
  2: { left. split; [exact Hargc |].
       assert ((Z.of_nat (length argv) =? 2) = false) as ->
         by (apply Z.eqb_neq; lia).
       reflexivity. }
  right. rewrite Hargc.
  cbn [Z.of_nat Pos.of_succ_nat Pos.succ Z.eqb Pos.eqb negb].
  set (audio_filename := nth 1 argv ""%string).
  destruct (st_fs s audio_filename) as [e | content] eqn:Hf.
  { left. split; [reflexivity |]. exists e. split; [reflexivity |].
    unfold acquire_resources, scope, bind, fopen. rewrite Hf. reflexivity. }
  right.
  destruct (create_audio_device_object_impl (st_backend s) None
              "pcaudiolib-example" "raw-audio-player") as [d b1] eqn:Hc.
  destruct (audio_object_open_impl b1 d AUDIO_OBJECT_FORMAT_S16LE 44100 1)
    as [code b2] eqn:Ho.
  rewrite (acquire_resources_run _ _ _ Hf Hc Ho). cbv zeta.
  destruct (code =? 0) eqn:C.
  - right. apply Z.eqb_eq in C. subst code. split; [reflexivity |].
    exists content, d, b1, b2. repeat split; try assumption;
      cbn [get]; destruct (playback _ _ _ _ _) as [[[]| |status] s3 tp];
      cbn [res_outcome res_trace after]; rewrite ?app_nil_r; reflexivity.
  - left. apply Z.eqb_neq in C. split; [reflexivity |].
    exists content, d, b1, code, b2. repeat split; assumption.
Qed.

Lemma write_calls_acquired audio_filename f d code :
  write_calls (acquired audio_filename f d code) = [].
Proof. reflexivity. Qed.

Lemma write_calls_released f d : write_calls (released f d) = [].
Proof. now destruct d. Qed.

(** X2: every [audio_object_write] call of every run of [main] passes
    a byte count that is the length of the data read, is at least 1 and
    is at most the 88200 bytes of [read_buffer]. *)
Theorem main_writes_fit_buffer argv s :
  Forall
    (fun w =>
       snd w = length (fst w) /\
       (1 <= snd w)%nat /\ Z.of_nat (snd w) <= 88200)
    (write_calls (res_trace (main argv s))).
Proof.
  destruct (main_runs argv s)
    as [(_ & ->) | [(_ & e & _ & ->)
       | [(_ & content & d & b1 & code & b2 & _ & _ & _ & _ & ->)
       | (_ & content & d & b1 & b2 & _ & _ & _ & _ & ->)]]].
  - constructor.
  - constructor.
  - cbn [res_trace]. rewrite write_calls_app, write_calls_acquired,
      write_calls_report. constructor.
  - rewrite !write_calls_app, write_calls_acquired.
    assert (write_calls
              match
                res_outcome
                  (playback (mk_auto_handle d) (ptr fopen_address)
                     (Z.to_nat buffer_size_in_bytes) indeterminate
                     (mkState (st_fs s) (st_errno s) content b2))
              with
              | Exited _ => []
              | _ => released (ptr fopen_address) d
              end = []) as ->
      by (destruct (res_outcome _); try apply write_calls_released;
          reflexivity).
    destruct (playback_write_calls (mk_auto_handle d) (ptr fopen_address)
                (Z.to_nat buffer_size_in_bytes) indeterminate
                (mkState (st_fs s) (st_errno s) content b2))
      as (cs & Hcs & -> & _).
    cbn [app]. rewrite app_nil_r. apply Forall_map.
    eapply Forall_impl; [| exact Hcs].
    intros c Hc. cbn [fst snd]. rewrite buffer_size_in_bytes_value in Hc.
    repeat split; lia.
Qed.

(** ** Failures *)

Lemma stops_without_failure t :
  Forall (fun e => failed_call e = None) t -> stops_at_first_failure t.
Proof.
  induction 1 as [|e t He _ IH]; [exact I |].
  cbn [stops_at_first_failure]. rewrite He. exact IH.
Qed.

Lemma stops_after_successes pre t :
  Forall (fun e => failed_call e = None) pre ->
  stops_at_first_failure t -> stops_at_first_failure (pre ++ t).
Proof.
  induction 1 as [|e pre He _ IH]; intros Ht; [exact Ht |].
  cbn [app stops_at_first_failure]. rewrite He. exact (IH Ht).
Qed.

Lemma no_failure_acquired audio_filename f d :
  Forall (fun e => failed_call e = None) (acquired audio_filename f d 0).
Proof. repeat constructor. Qed.

Lemma no_failure_released f d :
  Forall (fun e => failed_call e = None) (released f d).
Proof. destruct d; repeat constructor. Qed.

Lemma no_failure_write_ok d cs :
  Forall (fun e => failed_call e = None) (map (write_ok d) cs).
Proof. apply Forall_map. apply Forall_forall. reflexivity. Qed.

(** X3: in every run of [main], the first backend call that returns a
    non-zero code (open, write or drain) is followed by the report of
    that code on that object and by nothing else: no later write, no
    drain, no close, no destroy, no [std::fclose].  A run that returns
    normally has had no failed call. *)
Theorem main_stops_at_first_failure argv s :
  stops_at_first_failure (res_trace (main argv s)) /\
  (res_outcome (main argv s) = Normal tt ->
   Forall (fun e => failed_call e = None) (res_trace (main argv s))).
Proof.
  destruct (main_runs argv s)
    as [(_ & ->) | [(_ & e & _ & ->)
       | [(_ & content & d & b1 & code & b2 & _ & _ & _ & Hcode & ->)
       | (_ & content & d & b1 & b2 & _ & _ & _ & O & T)]]].
  - split; [exact I | discriminate].
  - split; [exact I | discriminate].
  - split; [| discriminate]. cbn [res_trace].
    unfold acquired. cbn [app stops_at_first_failure failed_call].
    apply Z.eqb_neq in Hcode. rewrite Hcode. eexists. reflexivity.
  - rewrite O, T. clear O T.
    destruct (playback_trace (mk_auto_handle d) (ptr fopen_address)
                (Z.to_nat buffer_size_in_bytes) indeterminate
                (mkState (st_fs s) (st_errno s) content b2))
      as (written & _ & [(code & -> & -> & _)
                        | (c & code & Hcode & _ & -> & -> & _)]);
      cbn [get].
    + destruct (code =? 0) eqn:C.
      * assert (Forall (fun e => failed_call e = None)
                  (acquired (nth 1 argv ""%string) (ptr fopen_address) d 0 ++
                   (map (write_ok d) written ++
                    [call_audio_object_drain d code]) ++
                   released (ptr fopen_address) d)) as Hok.
        { apply Forall_app. split; [apply no_failure_acquired |].
          apply Forall_app. split; [| apply no_failure_released].
          apply Forall_app. split; [apply no_failure_write_ok |].
          constructor; [cbn; now rewrite C | constructor]. }
        split; [now apply stops_without_failure | intros _; exact Hok].
      * split; [| discriminate]. rewrite app_nil_r.
        apply stops_after_successes; [apply no_failure_acquired |].
        apply stops_after_successes; [apply no_failure_write_ok |].
        cbn [stops_at_first_failure failed_call]. rewrite C.
        eexists. reflexivity.
    + split; [| discriminate]. rewrite app_nil_r.
      apply stops_after_successes; [apply no_failure_acquired |].
      apply stops_after_successes; [apply no_failure_write_ok |].
      cbn [stops_at_first_failure failed_call].
      apply Z.eqb_neq in Hcode. rewrite Hcode. eexists. reflexivity.
Qed.

(** ** The device handle in use *)

Lemma uses_device_acquired d audio_filename f code :
  Forall (uses_device d) (acquired audio_filename f d code).
Proof. repeat constructor. Qed.

Lemma uses_device_released d f : Forall (uses_device d) (released f d).
Proof. destruct d; repeat constructor. Qed.

Lemma uses_device_report d code text : Forall (uses_device d) (report d code text).
Proof. repeat constructor. Qed.

Lemma uses_device_write_ok d cs : Forall (uses_device d) (map (write_ok d) cs).
Proof. apply Forall_map. apply Forall_forall. reflexivity. Qed.

(** X4: every run of [main] works on one device handle: the handle
    [create_audio_device_object] returned is the object of every open,
    write, drain, close, destroy and strerror call of the run. *)
Theorem main_uses_created_device argv s :
  exists d, Forall (uses_device d) (res_trace (main argv s)).
Proof.
  destruct (main_runs argv s)
    as [(_ & ->) | [(_ & e & _ & ->)
       | [(_ & content & d & b1 & code & b2 & _ & _ & _ & _ & ->)
       | (_ & content & d & b1 & b2 & _ & _ & _ & _ & T)]]].
  - exists nullptr. repeat constructor.
  - exists nullptr. repeat constructor.
  - exists d. cbn [res_trace]. apply Forall_app.
    split; [apply uses_device_acquired | apply uses_device_report].
  - exists d. rewrite T. clear T.
    destruct (playback_trace (mk_auto_handle d) (ptr fopen_address)
                (Z.to_nat buffer_size_in_bytes) indeterminate
                (mkState (st_fs s) (st_errno s) content b2))
      as (written & _ & [(code & -> & -> & _)
                        | (c & code & _ & _ & -> & -> & _)]);
      cbn [get];
      (apply Forall_app; split; [apply uses_device_acquired |]);
      (apply Forall_app; split);
      try (apply Forall_app; split; [apply uses_device_write_ok |]).
    + constructor; [reflexivity |].
      destruct (code =? 0); [constructor | apply uses_device_report].
    + destruct (code =? 0);
        [apply uses_device_released | constructor].
    + constructor; [reflexivity | apply uses_device_report].
    + constructor.
Qed.

(** ** Which bytes each write call carries *)

Lemma playback_loop_write_calls_step
  audio_device source_stream size read_buffer s :
  write_calls
    (res_trace (playback_loop audio_device source_stream size read_buffer s))
  =
  match firstn size (st_unread s) with
  | [] => []
  | x :: bytes =>
      let c := x :: bytes in
      let w :=
        audio_object_write_impl (st_backend s) (get audio_device) c
          (length c) in
      (c, length c) ::
      (if fst w =? 0 then
         write_calls
           (res_trace
              (playback_loop audio_device source_stream size
                 (store c read_buffer)
                 (mkState (st_fs s) (st_errno s) (skipn size (st_unread s))
                    (snd w))))
       else [])
  end.
Proof.
  rewrite playback_loop_step, loop_body_eq. cbv zeta.
  destruct (firstn size (st_unread s)) as [|x bytes]; [reflexivity |].
  destruct (fst (audio_object_write_impl _ _ _ _) =? 0);
    cbn [res_outcome res_state res_trace]; [| reflexivity].
  rewrite after_trace. reflexivity.
Qed.

Lemma playback_loop_write_data audio_device source_stream size :
  forall n s read_buffer i,
    (length (st_unread s) <= n)%nat ->
    let ws :=
      write_calls
        (res_trace
           (playback_loop audio_device source_stream size read_buffer s)) in
    (i < length ws)%nat ->
    nth i ws ([], 0%nat) =
    (firstn size (skipn (i * size) (st_unread s)),
     length (firstn size (skipn (i * size) (st_unread s)))).
Proof.
  induction n as [|n IH]; intros s read_buffer i Hn; cbv zeta;
    rewrite playback_loop_write_calls_step;
    destruct (firstn size (st_unread s)) as [|x bytes] eqn:E;
    try (cbn; lia).
  - apply (f_equal (@length byte)) in E. rewrite length_firstn in E.
    cbn in E. lia.
  - cbv zeta. destruct i as [|i].
    + intros _. cbn [nth Nat.mul skipn]. rewrite E. reflexivity.
    + cbn [length nth]. intros Hi.
      destruct (fst (audio_object_write_impl _ _ _ _) =? 0);
        [| cbn in Hi; lia].
      rewrite IH.
      * cbn [st_unread Nat.mul]. rewrite skipn_skipn.
        replace (i * size + size)%nat with (size + i * size)%nat by lia.
        reflexivity.
      * cbn [st_unread]. rewrite length_skipn.
        apply (f_equal (@length byte)) in E. rewrite length_firstn in E.
        cbn in E. lia.
      * lia.
Qed.

Lemma playback_write_calls_loop
  audio_device source_stream size read_buffer s :
  write_calls
    (res_trace (playback audio_device source_stream size read_buffer s)) =
  write_calls
    (res_trace (playback_loop audio_device source_stream size read_buffer s)).
Proof.
  unfold playback. unfold bind at 1.
  destruct (playback_loop _ _ _ _ _) as [[[]| |status] s1 t1];
    try reflexivity.
  rewrite after_trace, write_calls_app. cbn [res_trace].
  rewrite <- (app_nil_r (write_calls t1)) at 2. f_equal.
  unfold bind, audio_object_drain, throw_if_error.
  destruct (audio_object_drain_impl _ _) as [code b'].
  destruct (code =? 0); reflexivity.
Qed.

(** X12: in every run of [main] on a file that opens, the write call
    number [i] (from zero) carries exactly the bytes of the file from
    offset [i * 88200] on, up to 88200 of them, and announces their
    count: the audio data reach the backend in file order, in full
    buffers except possibly the last. *)
Theorem main_write_carries_file_chunk argv s content i :
  st_fs s (nth 1 argv ""%string) = inr content ->
  let size := Z.to_nat buffer_size_in_bytes in
  let ws := write_calls (res_trace (main argv s)) in
  (i < length ws)%nat ->
  nth i ws ([], 0%nat) =
  (firstn size (skipn (i * size) content),
   length (firstn size (skipn (i * size) content))).
Proof.
  intros Hf size ws. subst ws.
  destruct (main_runs argv s)
    as [(_ & ->) | [(_ & e & _ & ->)
       | [(_ & content' & d & b1 & code & b2 & _ & _ & _ & _ & ->)
       | (_ & content' & d & b1 & b2 & Hf' & _ & _ & _ & ->)]]].
  - cbn. lia.
  - cbn. lia.
  - cbn [res_trace]. rewrite write_calls_app, write_calls_acquired,
      write_calls_report. cbn. lia.
  - rewrite Hf in Hf'. injection Hf' as <-.
    rewrite !write_calls_app, write_calls_acquired.
    assert (write_calls
              match
                res_outcome
                  (playback (mk_auto_handle d) (ptr fopen_address)
                     (Z.to_nat buffer_size_in_bytes) indeterminate
                     (mkState (st_fs s) (st_errno s) content b2))
              with
              | Exited _ => []
              | _ => released (ptr fopen_address) d
              end = []) as ->
      by (destruct (res_outcome _); try apply write_calls_released;
          reflexivity).
    cbn [app]. rewrite app_nil_r, playback_write_calls_loop.
    apply (@playback_loop_write_data (mk_auto_handle d) (ptr fopen_address)
             size _ (mkState (st_fs s) (st_errno s) content b2)
             indeterminate i (le_n _)).
Qed.

(** ** The argument count *)

(** X5: with any number of arguments other than one file name, [main]
    prints the usage text on standard output and exits with
    [EXIT_SUCCESS] without opening a file or calling the backend.  With
    one file name it never exits with [EXIT_SUCCESS]: it returns
    normally or exits with [EXIT_FAILURE]. *)
Theorem main_usage_on_wrong_argument_count argv s :
  (length argv <> 2%nat ->
   main argv s = Result (Exited EXIT_SUCCESS) s [write_stdout usage]) /\
  (length argv = 2%nat ->
   res_outcome (main argv s) = Normal tt \/
   res_outcome (main argv s) = Exited EXIT_FAILURE).
Proof.
  destruct (main_runs argv s)
    as [(Hargc & E) | [(Hargc & e & _ & E)
       | [(Hargc & content & d & b1 & code & b2 & _ & _ & _ & _ & E)
       | (Hargc & content & d & b1 & b2 & _ & _ & _ & O & _)]]].
  - split; [intros _; exact E | intros H; contradiction].
  - split; [intros H; contradiction | intros _; rewrite E; now right].
  - split; [intros H; contradiction | intros _; rewrite E; now right].
  - split; [intros H; contradiction | intros _; rewrite O].
    apply playback_events.
Qed.

(** ** A failed open *)

(** X6: when the file opens and [audio_object_open] returns a non-zero
    code, the run of [main] is: the three acquisition calls, the
    backend's text for that code written to standard error, and exit
    with [EXIT_FAILURE].  No write, drain, close, destroy or
    [std::fclose] call is made. *)
Theorem main_open_failure argv s content d b1 code b2 :
  length argv = 2%nat ->
  let audio_filename := nth 1 argv ""%string in
  st_fs s audio_filename = inr content ->
  create_audio_device_object_impl (st_backend s) None "pcaudiolib-example"
    "raw-audio-player" = (d, b1) ->
  audio_object_open_impl b1 d AUDIO_OBJECT_FORMAT_S16LE 44100 1 = (code, b2) ->
  code <> 0 ->
  main argv s =
  Result (Exited EXIT_FAILURE) (mkState (st_fs s) (st_errno s) content b2)
    [call_fopen audio_filename "rb" (ptr fopen_address);
     call_create_audio_device_object None "pcaudiolib-example"
       "raw-audio-player" d;
     call_audio_object_open d AUDIO_OBJECT_FORMAT_S16LE 44100 1 code;
     call_audio_object_strerror d code (audio_object_strerror_impl b2 d code);
     write_stderr (audio_object_strerror_impl b2 d code ++ newline)%string].
Proof.
  intros Hargc audio_filename Hf Hc Ho Hcode.
  unfold main. rewrite Hargc.
  cbn [Z.of_nat Pos.of_succ_nat Pos.succ Z.eqb Pos.eqb negb].
  fold audio_filename.
  rewrite (acquire_resources_run _ _ _ Hf Hc Ho). cbv zeta.
  apply Z.eqb_neq in Hcode. rewrite Hcode. reflexivity.
Qed.

(** X7: a [stream] whose constructor gets a non-zero code from
    [audio_object_open] is never constructed: whatever the block that
    would have used it, the block does not run, [audio_object_close] is
    not called, and the process exits with [EXIT_FAILURE] after the
    report of the code. *)
Theorem stream_ctor_failure_skips_block_and_close
  A (target_device : device) format r c (body : stream -> M A) s code b1 :
  audio_object_open_impl (st_backend s) (get target_device) format
    (to_uint32 r) (to_uint8 c) = (code, b1) ->
  code <> 0 ->
  scope (stream_ctor target_device format r c) stream_dtor body s =
  Result (Exited EXIT_FAILURE) (with_backend s b1)
    (call_audio_object_open (get target_device) format (to_uint32 r)
       (to_uint8 c) code ::
     report (get target_device) code
       (audio_object_strerror_impl b1 (get target_device) code)).
Proof.
  intros Ho Hcode.
  unfold scope, stream_ctor, stream_open, audio_object_open, throw_if_error,
    bind.
  cbn [parent_device]. rewrite Ho.
  apply Z.eqb_neq in Hcode. rewrite Hcode. reflexivity.
Qed.

(** ** The end of a run *)

Lemma filter_release_write_ok d cs :
  filter is_release_call (map (write_ok d) cs) = [].
Proof. induction cs as [|c cs IH]; [reflexivity | exact IH]. Qed.

Lemma count_drain_write_ok d cs :
  count is_drain_call (map (write_ok d) cs) = 0%nat.
Proof. induction cs as [|c cs IH]; [reflexivity | exact IH]. Qed.

(** X10: a run of [main] that returns normally ends with a drain call
    that returned zero, followed by exactly [audio_object_close],
    [audio_object_destroy] (when the device handle is not null) and
    [std::fclose]; before that drain call it made no drain and no
    release call. *)
Theorem main_normal_return_releases argv s :
  res_outcome (main argv s) = Normal tt ->
  exists d before,
    res_trace (main argv s) =
      before ++ call_audio_object_drain d 0 :: released (ptr fopen_address) d
    /\
    filter is_release_call before = [] /\
    count is_drain_call before = 0%nat.
Proof.
  intros Hnormal.
  destruct (main_runs argv s)
    as [(_ & E) | [(_ & e & _ & E)
       | [(_ & content & d & b1 & code & b2 & _ & _ & _ & _ & E)
       | (_ & content & d & b1 & b2 & _ & _ & _ & O & T)]]];
    try (rewrite E in Hnormal; discriminate).
  rewrite O in Hnormal. rewrite T. clear O T.
  destruct (playback_trace (mk_auto_handle d) (ptr fopen_address)
              (Z.to_nat buffer_size_in_bytes) indeterminate
              (mkState (st_fs s) (st_errno s) content b2))
    as (written & _ & [(code & O & T & _)
                      | (c & code & _ & _ & O & _)]);
    rewrite O in Hnormal; [| discriminate].
  rewrite O, T. cbn [get]. clear O T.
  destruct (code =? 0) eqn:C; [| discriminate].
  apply Z.eqb_eq in C. subst code.
  exists d, (acquired (nth 1 argv ""%string) (ptr fopen_address) d 0 ++
             map (write_ok d) written).
  repeat split.
  - now rewrite <- !app_assoc.
  - rewrite filter_app, filter_release_write_ok. reflexivity.
  - rewrite count_app, count_drain_write_ok. reflexivity.
Qed.

(** X11: a drain call is made only when the whole file has been handed
    to [audio_object_write]: in every run of the playback with a
    non-empty buffer, if the trace holds a drain call, successful or
    not, then the data of the write calls put end to end are the bytes
    of the file and nothing is left unread. *)
Theorem playback_drains_after_whole_file
  audio_device source_stream size read_buffer s object code :
  (0 < size)%nat ->
  let r := playback audio_device source_stream size read_buffer s in
  In (call_audio_object_drain object code) (res_trace r) ->
  concat (map fst (write_calls (res_trace r))) = st_unread s /\
  st_unread (res_state r) = [].
Proof.
  intros Hsize r Hin.
  assert (concat (map fst (write_calls (res_trace r))) ++
          st_unread (res_state r) = st_unread s) as Hcons.
  { destruct (playback_write_calls audio_device source_stream size
                read_buffer s) as (cs & _ & E & Hcat).
    fold r in E, Hcat. rewrite E, map_map. cbn [fst].
    rewrite map_id. exact Hcat. }
  assert (st_unread (res_state r) = []) as Hend.
  { destruct (playback_trace audio_device source_stream size read_buffer s)
      as (written & _ & [(code' & _ & _ & _ & Hend)
                        | (c & code' & _ & _ & _ & T & _)]).
    - fold r in Hend. now apply (@firstn_nil_inv size).
    - exfalso. fold r in T. rewrite T in Hin.
      apply in_app_or in Hin. destruct Hin as [Hin | Hin].
      + apply in_map_iff in Hin. destruct Hin as (x & Hx & _).
        discriminate.
      + cbn in Hin. intuition discriminate. }
  rewrite Hend, app_nil_r in Hcons. split; assumption.
Qed.

End Coverage.

(** * The properties at concrete inputs *)

Section Instances.

Import Examples.

#[local] Existing Instance test_platform.

Lemma playback_writes_whole_file_in_chunks_witness :
  (0 < 2)%nat /\
  playback (mk_auto_handle (ptr 3)) (ptr 7) 2 (fun _ => xff)
    playing_five_bytes =
  Result (Normal tt) played_five_bytes five_bytes_trace /\
  length (write_calls five_bytes_trace) = 3%nat /\
  last (map snd (write_calls five_bytes_trace)) 0%nat = 1%nat /\
  concat (map fst (write_calls five_bytes_trace)) = five_bytes.
Proof.
  assert (0 < 2)%nat as Hs by lia.
  assert (playback (mk_auto_handle (ptr 3)) (ptr 7) 2 (fun _ => xff)
            playing_five_bytes =
          Result (Normal tt) played_five_bytes five_bytes_trace) as Hr
    by (vm_compute; reflexivity).
  pose proof
    (@playback_writes_whole_file_in_chunks healthy_backend
       (mk_auto_handle (ptr 3)) (ptr 7) 2%nat (fun _ => xff)
       playing_five_bytes played_five_bytes five_bytes_trace Hs Hr)
    as (L & Hlast & _ & Hcat & _).
  split; [exact Hs |]. split; [exact Hr |].
  split; [exact L |]. split; [| exact Hcat].
  apply Hlast. vm_compute. lia.
Defined.

Lemma throw_if_error_signals_witness :
  firstn 2 (skipn 2 three_bytes) <> [] /\
  @audio_object_write_impl second_write_fails 0%nat (ptr 3) [x01; x02] 2
    = (0, 1%nat) /\
  @audio_object_write_impl second_write_fails 1%nat (ptr 3) [x03] 1
    = (5, 2%nat) /\
  5 <> 0 /\
  res_outcome
    (playback (mk_auto_handle (ptr 3)) (ptr 7) 2 (fun _ => xff)
       playing_three_bytes) = Exited EXIT_FAILURE /\
  res_trace
    (playback (mk_auto_handle (ptr 3)) (ptr 7) 2 (fun _ => xff)
       playing_three_bytes) =
  [write_ok (ptr 3) [x01; x02];
   call_audio_object_write (ptr 3) [x03] 1 5;
   call_audio_object_strerror (ptr 3) 5 "backend error";
   write_stderr ("backend error" ++ newline)%string].
Proof.
  assert (firstn 2 (skipn 2 three_bytes) <> []) as H1 by discriminate.
  assert (@audio_object_write_impl second_write_fails 0%nat (ptr 3)
            [x01; x02] 2 = (0, 1%nat)) as H2 by reflexivity.
  assert (@audio_object_write_impl second_write_fails 1%nat (ptr 3)
            [x03] 1 = (5, 2%nat)) as H3 by reflexivity.
  assert (5 <> 0) as H4 by discriminate.
  destruct
    (proj2 (proj2 (@throw_if_error_signals second_write_fails))
       (mk_auto_handle (ptr 3)) (ptr 7) 2%nat (fun _ => xff)
       playing_three_bytes 1%nat 5 2%nat H1 H2 H3 H4) as (Ho & Ht & _).
  repeat split; assumption.
Defined.

Lemma stream_guard_opens_and_closes_once_witness :
  @audio_object_open_impl healthy_backend 0%nat (ptr 3) AUDIO_OBJECT_FORMAT_S16LE (to_uint32 44100)
    (to_uint8 1) = (0, 0%nat) /\
  res_trace
    (scope
       (stream_ctor (backend := healthy_backend) (mk_auto_handle (ptr 3))
          AUDIO_OBJECT_FORMAT_S16LE 44100 1) stream_dtor
       (fun _ => throwing) playing_five_bytes) =
  [call_audio_object_open (ptr 3) AUDIO_OBJECT_FORMAT_S16LE 44100 1 0;
   call_audio_object_close (ptr 3)] /\
  res_outcome
    (scope
       (stream_ctor (backend := healthy_backend) (mk_auto_handle (ptr 3))
          AUDIO_OBJECT_FORMAT_S16LE 44100 1) stream_dtor
       (fun _ => throwing) playing_five_bytes) = Thrown.
Proof.
  assert (@audio_object_open_impl healthy_backend 0%nat (ptr 3)
            AUDIO_OBJECT_FORMAT_S16LE (to_uint32 44100) (to_uint8 1) = (0, 0%nat)) as H1
    by reflexivity.
  destruct
    (@stream_guard_opens_and_closes_once healthy_backend unit
       (mk_auto_handle (ptr 3)) AUDIO_OBJECT_FORMAT_S16LE 44100 1
       (fun _ => throwing)
       playing_five_bytes 0%nat H1
       (fun status (H : Thrown = Exited status) =>
          eq_ind Thrown
            (fun o => match o with Thrown => True | _ => False end) I
            (Exited status) H))
    as (Ho & Ht & _).
  repeat split; assumption.
Defined.

Lemma device_handle_destroys_once_witness :
  res_trace
    (scope (backend := healthy_backend) (auto_handle_ctor (ptr 3))
       device_dtor (fun _ => throwing) playing_five_bytes) = [call_audio_object_destroy (ptr 3)] /\
  res_outcome
    (scope (backend := healthy_backend) (auto_handle_ctor (ptr 3))
       device_dtor (fun _ => throwing) playing_five_bytes) = Thrown.
Proof.
  destruct
    (@device_handle_destroys_once healthy_backend unit (ptr 3)
       (fun _ => throwing) playing_five_bytes
       (fun status (H : Thrown = Exited status) =>
          eq_ind Thrown
            (fun o => match o with Thrown => True | _ => False end) I
            (Exited status) H))
    as (Ho & Ht & _).
  split; assumption.
Defined.


Lemma main_reports_unopenable_file_witness :
  length play_missing = 2%nat /\
  one_file three_bytes (nth 1 play_missing ""%string) = inl 2 /\
  main play_missing
    (@initial_state healthy_backend (one_file three_bytes) 0%nat) =
  Result (Exited EXIT_FAILURE)
    (@mkState healthy_backend (one_file three_bytes) 2 [] 0%nat)
    [call_fopen "missing.raw" "rb" nullptr;
     write_stderr ("Unable to load: missing.raw" ++ newline)%string;
     call_fflush_stderr;
     write_stderr ("No such file or directory" ++ newline)%string].
Proof.
  assert (length play_missing = 2%nat) as H1 by reflexivity.
  assert (one_file three_bytes (nth 1 play_missing ""%string) = inl 2) as H2
    by reflexivity.
  destruct
    (@main_reports_unopenable_file healthy_backend test_platform play_missing
       (@initial_state healthy_backend (one_file three_bytes) 0%nat) 2 H1 H2)
    as (E & _).
  repeat split; assumption.
Defined.

Lemma main_opens_null_device_witness :
  length play_audio_raw = 2%nat /\
  one_file three_bytes (nth 1 play_audio_raw ""%string) = inr three_bytes /\
  @create_audio_device_object_impl no_device 0%nat None "pcaudiolib-example"
    "raw-audio-player" = (nullptr, 0%nat) /\
  exists rest,
    res_trace
      (main play_audio_raw
         (@initial_state no_device (one_file three_bytes) 0%nat)) =
    call_fopen "audio.raw" "rb" (ptr 7)
    :: call_create_audio_device_object None "pcaudiolib-example"
         "raw-audio-player" nullptr
    :: call_audio_object_open nullptr AUDIO_OBJECT_FORMAT_S16LE 44100 1 22
    :: rest.
Proof.
  assert (length play_audio_raw = 2%nat) as H1 by reflexivity.
  assert (one_file three_bytes (nth 1 play_audio_raw ""%string)
          = inr three_bytes) as H2 by reflexivity.
  assert (@create_audio_device_object_impl no_device 0%nat None
            "pcaudiolib-example" "raw-audio-player" = (nullptr, 0%nat)) as H3
    by reflexivity.
  repeat split; try assumption.
  exact
    (@main_opens_null_device no_device test_platform play_audio_raw
       (@initial_state no_device (one_file three_bytes) 0%nat) three_bytes
       0%nat H1 H2 H3).
Defined.

(** A run depends on what earlier programs left in the file system: on
    [audio.raw] holding three bytes [main] makes one write call; once a
    program has opened [audio.raw] for writing, the same command makes
    none. *)
Lemma run_after_open_for_writing_differs :
  write_calls
    (res_trace
       (main play_audio_raw
          (@initial_state healthy_backend (one_file three_bytes) 0%nat)))
  = [(three_bytes, 3%nat)] /\
  write_calls
    (res_trace
       (main play_audio_raw
          (@initial_state healthy_backend
             (st_fs
                (res_state
                   (fopen "audio.raw" "wb"
                      (@initial_state healthy_backend (one_file three_bytes)
                         0%nat))))
             0%nat)))
  = [].
Proof. split; vm_compute; reflexivity. Qed.

(** C1: on the fatal path the guards release nothing.  The file holds
    three bytes and the backend fails the first write.  By then
    [test_file], [audio_device] and [audio_sink] are all constructed.
    The program reports the error and exits; it calls neither
    [audio_object_close] nor [audio_object_destroy] nor [std::fclose]. *)
Theorem fatal_write_error_releases_nothing :
  res_outcome
    (main play_audio_raw
       (@initial_state first_write_fails (one_file three_bytes) 0%nat))
  = Exited EXIT_FAILURE /\
  res_trace
    (main play_audio_raw
       (@initial_state first_write_fails (one_file three_bytes) 0%nat)) =
  [call_fopen "audio.raw" "rb" (ptr 7);
   call_create_audio_device_object None "pcaudiolib-example"
     "raw-audio-player" (ptr 3);
   call_audio_object_open (ptr 3) AUDIO_OBJECT_FORMAT_S16LE 44100 1 0;
   call_audio_object_write (ptr 3) three_bytes 3 5;
   call_audio_object_strerror (ptr 3) 5 "backend error";
   write_stderr ("backend error" ++ newline)%string] /\
  count is_close_call
    (res_trace
       (main play_audio_raw
          (@initial_state first_write_fails (one_file three_bytes) 0%nat)))
  = 0%nat /\
  count is_destroy_call
    (res_trace
       (main play_audio_raw
          (@initial_state first_write_fails (one_file three_bytes) 0%nat)))
  = 0%nat /\
  count is_fclose_call
    (res_trace
       (main play_audio_raw
          (@initial_state first_write_fails (one_file three_bytes) 0%nat)))
  = 0%nat.
Proof. repeat split; vm_compute; reflexivity. Qed.

Lemma main_usage_on_wrong_argument_count_witness :
  length play_nothing <> 2%nat /\
  length play_audio_raw = 2%nat /\
  main play_nothing
    (@initial_state healthy_backend (one_file three_bytes) 0%nat) =
  Result (Exited EXIT_SUCCESS)
    (@initial_state healthy_backend (one_file three_bytes) 0%nat)
    [write_stdout usage] /\
  (res_outcome
     (main play_audio_raw
        (@initial_state healthy_backend (one_file three_bytes) 0%nat))
   = Normal tt \/
   res_outcome
     (main play_audio_raw
        (@initial_state healthy_backend (one_file three_bytes) 0%nat))
   = Exited EXIT_FAILURE).
Proof.
  assert (length play_nothing <> 2%nat) as H1 by discriminate.
  assert (length play_audio_raw = 2%nat) as H2 by reflexivity.
  split; [exact H1 |]. split; [exact H2 |]. split.
  - exact
      (proj1
         (@main_usage_on_wrong_argument_count healthy_backend test_platform
            play_nothing
            (@initial_state healthy_backend (one_file three_bytes) 0%nat))
         H1).
  - exact
      (proj2
         (@main_usage_on_wrong_argument_count healthy_backend test_platform
            play_audio_raw
            (@initial_state healthy_backend (one_file three_bytes) 0%nat))
         H2).
Defined.

Lemma main_open_failure_witness :
  length play_audio_raw = 2%nat /\
  one_file three_bytes (nth 1 play_audio_raw ""%string) = inr three_bytes /\
  @create_audio_device_object_impl open_fails 0%nat None "pcaudiolib-example"
    "raw-audio-player" = (ptr 3, 0%nat) /\
  @audio_object_open_impl open_fails 0%nat (ptr 3) AUDIO_OBJECT_FORMAT_S16LE
    44100 1 = (13, 0%nat) /\
  13 <> 0 /\
  main play_audio_raw
    (@initial_state open_fails (one_file three_bytes) 0%nat) =
  Result (Exited EXIT_FAILURE)
    (@mkState open_fails (one_file three_bytes) 0 three_bytes 0%nat)
    [call_fopen "audio.raw" "rb" (ptr 7);
     call_create_audio_device_object None "pcaudiolib-example"
       "raw-audio-player" (ptr 3);
     call_audio_object_open (ptr 3) AUDIO_OBJECT_FORMAT_S16LE 44100 1 13;
     call_audio_object_strerror (ptr 3) 13 "backend error";
     write_stderr ("backend error" ++ newline)%string].
Proof.
  assert (length play_audio_raw = 2%nat) as H1 by reflexivity.
  assert (one_file three_bytes (nth 1 play_audio_raw ""%string)
          = inr three_bytes) as H2 by reflexivity.
  assert (@create_audio_device_object_impl open_fails 0%nat None
            "pcaudiolib-example" "raw-audio-player" = (ptr 3, 0%nat)) as H3
    by reflexivity.
  assert (@audio_object_open_impl open_fails 0%nat (ptr 3)
            AUDIO_OBJECT_FORMAT_S16LE 44100 1 = (13, 0%nat)) as H4
    by reflexivity.
  assert (13 <> 0) as H5 by discriminate.
  split; [exact H1 |]. split; [exact H2 |]. split; [exact H3 |].
  split; [exact H4 |]. split; [exact H5 |].
  exact
    (@main_open_failure open_fails test_platform play_audio_raw
       (@initial_state open_fails (one_file three_bytes) 0%nat) three_bytes
       (ptr 3) 0%nat 13 0%nat H1 H2 H3 H4 H5).
Defined.

Lemma stream_ctor_failure_skips_block_and_close_witness :
  @audio_object_open_impl open_fails 0%nat (ptr 3) AUDIO_OBJECT_FORMAT_S16LE
    (to_uint32 44100) (to_uint8 1) = (13, 0%nat) /\
  13 <> 0 /\
  scope
    (stream_ctor (backend := open_fails) (mk_auto_handle (ptr 3))
       AUDIO_OBJECT_FORMAT_S16LE 44100 1) stream_dtor
    (fun _ => throwing)
    (@initial_state open_fails (one_file three_bytes) 0%nat) =
  Result (Exited EXIT_FAILURE)
    (@initial_state open_fails (one_file three_bytes) 0%nat)
    [call_audio_object_open (ptr 3) AUDIO_OBJECT_FORMAT_S16LE 44100 1 13;
     call_audio_object_strerror (ptr 3) 13 "backend error";
     write_stderr ("backend error" ++ newline)%string].
Proof.
  assert (@audio_object_open_impl open_fails 0%nat (ptr 3)
            AUDIO_OBJECT_FORMAT_S16LE (to_uint32 44100) (to_uint8 1)
          = (13, 0%nat)) as H1 by reflexivity.
  assert (13 <> 0) as H2 by discriminate.
  split; [exact H1 |]. split; [exact H2 |].
  exact
    (@stream_ctor_failure_skips_block_and_close open_fails unit
       (mk_auto_handle (ptr 3)) AUDIO_OBJECT_FORMAT_S16LE 44100 1
       (fun _ => throwing)
       (@initial_state open_fails (one_file three_bytes) 0%nat) 13 0%nat
       H1 H2).
Defined.

Lemma main_successful_run_witness :
  length play_audio_raw = 2%nat /\
  res_outcome
    (main play_audio_raw
       (@initial_state healthy_backend (one_file three_bytes) 0%nat))
  = Normal tt /\
  res_trace
    (main play_audio_raw
       (@initial_state healthy_backend (one_file three_bytes) 0%nat)) =
  [call_fopen "audio.raw" "rb" (ptr 7);
   call_create_audio_device_object None "pcaudiolib-example"
     "raw-audio-player" (ptr 3);
   call_audio_object_open (ptr 3) AUDIO_OBJECT_FORMAT_S16LE 44100 1 0;
   write_ok (ptr 3) three_bytes;
   call_audio_object_drain (ptr 3) 0;
   call_audio_object_close (ptr 3);
   call_audio_object_destroy (ptr 3);
   call_fclose (ptr 7)].
Proof.
  assert (length play_audio_raw = 2%nat) as H1 by reflexivity.
  assert (one_file three_bytes (nth 1 play_audio_raw ""%string)
          = inr three_bytes) as H2 by reflexivity.
  assert (@create_audio_device_object_impl healthy_backend 0%nat None
            "pcaudiolib-example" "raw-audio-player" = (ptr 3, 0%nat)) as H3
    by reflexivity.
  assert (@audio_object_open_impl healthy_backend 0%nat (ptr 3)
            AUDIO_OBJECT_FORMAT_S16LE 44100 1 = (0, 0%nat)) as H4
    by reflexivity.
  assert (playback (backend := healthy_backend) (mk_auto_handle (ptr 3))
            (ptr fopen_address) (Z.to_nat buffer_size_in_bytes) indeterminate
            (@mkState healthy_backend (one_file three_bytes) 0 three_bytes
               0%nat) =
          Result (Normal tt)
            (@mkState healthy_backend (one_file three_bytes) 0 [] 1%nat)
            [write_ok (ptr 3) three_bytes;
             call_audio_object_drain (ptr 3) 0]) as H5
    by (vm_compute; reflexivity).
  destruct
    (@main_successful_run healthy_backend test_platform play_audio_raw
       (@initial_state healthy_backend (one_file three_bytes) 0%nat)
       three_bytes 3%positive 0%nat 0%nat _ _ H1 H2 H3 H4 H5) as (Ho & Ht).
  split; [exact H1 |]. split; [exact Ho |].
  rewrite Ht. vm_compute. reflexivity.
Defined.

Lemma exited_main_releases_nothing_witness :
  res_outcome
    (main play_audio_raw
       (@initial_state first_write_fails (one_file three_bytes) 0%nat))
  = Exited EXIT_FAILURE /\
  filter is_release_call
    (res_trace
       (main play_audio_raw
          (@initial_state first_write_fails (one_file three_bytes) 0%nat)))
  = [].
Proof.
  assert (res_outcome
            (main play_audio_raw
               (@initial_state first_write_fails (one_file three_bytes)
                  0%nat)) = Exited EXIT_FAILURE) as H1
    by (vm_compute; reflexivity).
  split; [exact H1 |].
  exact
    (@exited_main_releases_nothing first_write_fails test_platform
       play_audio_raw
       (@initial_state first_write_fails (one_file three_bytes) 0%nat)
       EXIT_FAILURE H1).
Defined.

Lemma main_normal_return_releases_witness :
  res_outcome
    (main play_audio_raw
       (@initial_state healthy_backend (one_file three_bytes) 0%nat))
  = Normal tt /\
  exists d before,
    res_trace
      (main play_audio_raw
         (@initial_state healthy_backend (one_file three_bytes) 0%nat)) =
    before ++ call_audio_object_drain d 0 :: released (ptr fopen_address) d
    /\
    filter is_release_call before = [] /\
    count is_drain_call before = 0%nat.
Proof.
  assert (res_outcome
            (main play_audio_raw
               (@initial_state healthy_backend (one_file three_bytes) 0%nat))
          = Normal tt) as H1 by (vm_compute; reflexivity).
  split; [exact H1 |].
  exact
    (@main_normal_return_releases healthy_backend test_platform
       play_audio_raw
       (@initial_state healthy_backend (one_file three_bytes) 0%nat) H1).
Defined.

Lemma playback_drains_after_whole_file_witness :
  (0 < 2)%nat /\
  In (call_audio_object_drain (ptr 3) 9)
    (res_trace
       (playback (backend := drain_fails) (mk_auto_handle (ptr 3)) (ptr 7) 2
          (fun _ => xff)
          (@mkState drain_fails (one_file five_bytes) 0 five_bytes 0%nat)))
  /\
  concat
    (map fst
       (write_calls
          (res_trace
             (playback (backend := drain_fails) (mk_auto_handle (ptr 3))
                (ptr 7) 2 (fun _ => xff)
                (@mkState drain_fails (one_file five_bytes) 0 five_bytes
                   0%nat))))) = five_bytes.
Proof.
  assert (0 < 2)%nat as H1 by lia.
  assert (In (call_audio_object_drain (ptr 3) 9)
            (res_trace
               (playback (backend := drain_fails) (mk_auto_handle (ptr 3))
                  (ptr 7) 2 (fun _ => xff)
                  (@mkState drain_fails (one_file five_bytes) 0 five_bytes
                     0%nat)))) as H2
    by (vm_compute; do 3 right; left; reflexivity).
  destruct
    (@playback_drains_after_whole_file drain_fails (mk_auto_handle (ptr 3))
       (ptr 7) 2%nat (fun _ => xff)
       (@mkState drain_fails (one_file five_bytes) 0 five_bytes 0%nat)
       (ptr 3) 9 H1 H2) as (Hcat & _).
  split; [exact H1 |]. split; [exact H2 | exact Hcat].
Defined.

Lemma main_write_carries_file_chunk_witness :
  one_file three_bytes (nth 1 play_audio_raw ""%string) = inr three_bytes /\
  (0 <
   length
     (write_calls
        (res_trace
           (main play_audio_raw
              (@initial_state healthy_backend (one_file three_bytes) 0%nat)))))%nat
  /\
  nth 0
    (write_calls
       (res_trace
          (main play_audio_raw
             (@initial_state healthy_backend (one_file three_bytes) 0%nat))))
    ([], 0%nat) = (three_bytes, 3%nat).
Proof.
  assert (one_file three_bytes (nth 1 play_audio_raw ""%string)
          = inr three_bytes) as H1 by reflexivity.
  assert (0 <
          length
            (write_calls
               (res_trace
                  (main play_audio_raw
                     (@initial_state healthy_backend (one_file three_bytes)
                        0%nat)))))%nat as H2
    by (vm_compute; lia).
  pose proof
    (@main_write_carries_file_chunk healthy_backend test_platform
       play_audio_raw
       (@initial_state healthy_backend (one_file three_bytes) 0%nat)
       three_bytes 0%nat H1 H2) as H3.
  split; [exact H1 |]. split; [exact H2 |].
  rewrite H3. vm_compute. reflexivity.
Defined.

End Instances.
